(** * hoyomap asset server: request routing and path confinement

    A shallow embedding of [server.py]: the route tables, [safe_resolve],
    [list_files], the [Handler] methods [do_GET], [_serve_json],
    [_serve_file], [end_headers] and [log_message], and the line the main
    block prints, over a model of the POSIX file system, of the
    [pathlib] / [posixpath] operations the program calls, and of the part
    of [http.server] that parses a request, calls [do_GET] and logs. *)

From Stdlib Require Import List String Ascii Bool Arith PeanoNat NArith ZArith Lia.
From Stdlib Require Import Strings.Byte DecimalString DecimalNat.
From Stdlib Require Import Orders Sorting.Mergesort Sorting.Sorted Sorting.Permutation.
Import ListNotations.

Local Open Scope string_scope.
Local Open Scope list_scope.

(** ** Python [str]

    A request line is decoded by [http.server] as ISO-8859-1, one character
    per byte, so a request path is exactly a Rocq [string]. File names are
    [str] values as well; the model covers names whose code points are
    below 256. On these, Python's ordering by code point is the ordering of
    [String.leb]. *)

Module PyStr.

(** [s.startswith(p)] *)
Definition startswith (s p : string) : bool := String.prefix p s.

(** [s[n:]] *)
Fixpoint slice_from (n : nat) (s : string) : string :=
  match n, s with
  | O, _ => s
  | S _, EmptyString => EmptyString
  | S n', String _ s' => slice_from n' s'
  end.

(** [s.endswith(suffix)]: the last [len(suffix)] characters are [suffix]. *)
Definition endswith (s suffix : string) : bool :=
  Nat.leb (String.length suffix) (String.length s) &&
  String.eqb (slice_from (String.length s - String.length suffix) s) suffix.

(** [s.split(sep)] for a one-character separator: never empty. *)
Fixpoint split (sep : ascii) (s : string) : list string :=
  match s with
  | EmptyString => [EmptyString]
  | String c s' =>
      if Ascii.eqb c sep then EmptyString :: split sep s'
      else match split sep s' with
           | [] => [String c EmptyString]
           | w :: ws => String c w :: ws
           end
  end.

(** [s * n] *)
Fixpoint str_mul (s : string) (n : nat) : string :=
  match n with
  | O => EmptyString
  | S n' => (s ++ str_mul s n')%string
  end.

(** [xs[0]] on a list known to be non-empty. *)
Definition first (xs : list string) : string := hd EmptyString xs.

(** [str(n)] for a non-negative [int]. *)
Definition str_of_nat (n : nat) : string :=
  NilZero.string_of_uint (Nat.to_uint n).

(** [int(s)] restricted to non-negative decimal numerals. *)
Definition nat_of_str (s : string) : option nat :=
  option_map Nat.of_uint (NilZero.uint_of_string s).

(** ['\x00' in s] *)
Fixpoint has_nul (s : string) : bool :=
  match s with
  | EmptyString => false
  | String c s' => Ascii.eqb c zero || has_nul s'
  end.

(** [s.encode()]: UTF-8 of code points below 256. *)
Definition byte_of_N (n : N) : byte :=
  match Byte.of_N n with Some b => b | None => x00 end.

Definition encode_char (c : ascii) : list byte :=
  let n := N_of_ascii c in
  if (n <? 128)%N then [byte_of_N n]
  else [byte_of_N (192 + n / 64); byte_of_N (128 + n mod 64)].

Fixpoint encode (s : string) : list byte :=
  match s with
  | EmptyString => []
  | String c s' => encode_char c ++ encode s'
  end.

End PyStr.
Import PyStr.

(** ** Python [dict] with [str] keys, in insertion order *)

Fixpoint dict_get {V : Type} (k : string) (d : list (string * V)) : option V :=
  match d with
  | [] => None
  | (k', v) :: d' => if k' =? k then Some v else dict_get k d'
  end.

(** [k in d] *)
Definition dict_in {V : Type} (k : string) (d : list (string * V)) : bool :=
  match dict_get k d with Some _ => true | None => false end.

(** ** [pathlib.PurePosixPath]

    A pure path is its anchor and its parts. Parsing keeps [..] and drops
    empty and [.] components; exactly two leading slashes are an anchor of
    their own ([posixpath.splitroot]). *)

Inductive anchor : Type := Relative | Root | Root2.

Record PurePath : Type := mkPath { root : anchor; parts : list string }.

Definition anchor_eqb (a b : anchor) : bool :=
  match a, b with
  | Relative, Relative | Root, Root | Root2, Root2 => true
  | _, _ => false
  end.

Definition path_anchor (s : string) : anchor :=
  match s with
  | String "/" (String "/" (String "/" _)) => Root
  | String "/" (String "/" _) => Root2
  | String "/" _ => Root
  | _ => Relative
  end.

Definition keep_part (x : string) : bool := negb (x =? "") && negb (x =? ".").

(** [PurePosixPath(s)] *)
Definition parse_path (s : string) : PurePath :=
  mkPath (path_anchor s) (filter keep_part (split "/" s)).

(** [p / s]: an absolute right operand replaces the left one
    ([posixpath.join]). *)
Definition joinpath (p : PurePath) (s : string) : PurePath :=
  if startswith s "/" then parse_path s
  else mkPath (root p) (parts p ++ parts (parse_path s)).

Declare Scope path_scope.
Delimit Scope path_scope with path.
Bind Scope path_scope with PurePath.
Infix "/" := joinpath : path_scope.

Fixpoint is_prefix (xs ys : list string) : bool :=
  match xs, ys with
  | [], _ => true
  | _ :: _, [] => false
  | x :: xs', y :: ys' => (x =? y) && is_prefix xs' ys'
  end.

(** [p.is_relative_to(other)]: same anchor, and the parts of [other] are
    a prefix of the parts of [p]. A test on whole segments, not on the text. *)
Definition is_relative_to (p other : PurePath) : bool :=
  anchor_eqb (root p) (root other) && is_prefix (parts other) (parts p).

(** ** Exceptions and results *)

Inductive oserror : Type :=
  ENOENT | ENOTDIR | EISDIR | EACCES | ELOOP | ENAMETOOLONG.

Inductive exn : Type :=
| ValueError
| RuntimeError
| OSError (e : oserror).

Inductive result (A : Type) : Type :=
| Ok (a : A)
| Raise (e : exn).
Arguments Ok {A} a.
Arguments Raise {A} e.

Definition bind {A B : Type} (r : result A) (k : A -> result B) : result B :=
  match r with
  | Ok a => k a
  | Raise e => Raise e
  end.

Notation "x <- r ;; k" := (bind r (fun x => k))
  (at level 61, r at next level, right associativity).

(** [try: body except (ValueError, OSError): handler] *)
Definition try_except_ValueError_OSError {A : Type}
  (body : result A) (handler : result A) : result A :=
  match body with
  | Ok a => Ok a
  | Raise ValueError => handler
  | Raise (OSError _) => handler
  | Raise RuntimeError => Raise RuntimeError
  end.

(** ** The file system

    A tree of regular files, directories and symbolic links. [path] values
    inside the model are lists of components below the root directory. *)

#[warnings="-register-all"]
Inductive node : Type :=
| File (readable : bool) (content : list byte)
| Dir (entries : list (string * node))
| Symlink (target : string).

(** The state a request runs against: the tree, the working directory (a
    canonical path), and the interpreter's way with a loop of symbolic
    links. [legacy] is true for Python up to 3.12: [realpath] stops at the
    loop and [Path.resolve] raises [RuntimeError] when the path it got
    still runs into the loop. It is false for Python 3.13 on: [realpath]
    takes the looping link as an ordinary entry and goes on, and
    [Path.resolve] raises nothing. *)
Record world : Type := mkWorld {
  fs : node;
  cwd : list string;
  legacy : bool
}.

Definition path_eq_dec : forall p q : list string, {p = q} + {p <> q} :=
  list_eq_dec string_dec.

(** The node a canonical path names, following no link ([os.lstat]). *)
Fixpoint lookup_path (n : node) (p : list string) : option node :=
  match p with
  | [] => Some n
  | x :: p' =>
      match n with
      | Dir entries =>
          match dict_get x entries with
          | Some child => lookup_path child p'
          | None => None
          end
      | _ => None
      end
  end.

(** The components of a link target, and the directory they start from. *)
Definition target_parts (target : string) : list string :=
  if startswith target "/" then split "/" (slice_from 1 target)
  else split "/" target.

Definition target_start (target : string) (dir : list string) : list string :=
  if startswith target "/" then [] else dir.

(** *** Path resolution by the kernel ([stat], [open], [scandir])

    Every component is looked up in a directory, links are followed, and
    at most [MAXSYMLINKS] links are followed in one resolution. A path
    whose text takes [PATH_MAX] bytes or more is refused before any
    lookup, and a component of more than [NAME_MAX] bytes is refused by
    the directory it is looked up in; both give [ENAMETOOLONG]. Every
    directory of the tree can be searched and read by the server:
    permissions are modelled on regular files only. *)

Definition MAXSYMLINKS : nat := 40.

Definition NAME_MAX : nat := 255.

#[warnings="-abstract-large-number"]
Definition PATH_MAX : nat := 4096.

(** [os.fspath(p)]: the text of a path. *)
Definition fspath (p : PurePath) : string :=
  match root p, parts p with
  | Relative, [] => "."
  | Relative, ps => String.concat "/" ps
  | Root, ps => "/" ++ String.concat "/" ps
  | Root2, ps => "//" ++ String.concat "/" ps
  end.

Definition name_too_long (name : string) : bool :=
  Nat.ltb NAME_MAX (List.length (encode name)).

Definition path_too_long (p : PurePath) : bool :=
  Nat.leb PATH_MAX (List.length (encode (fspath p))).

Fixpoint namei (hops : nat) (t : node) (cur rest : list string) {struct hops}
  : oserror + list string :=
  (fix walk (rest cur : list string) {struct rest} : oserror + list string :=
     match rest with
     | [] => inr cur
     | name :: rest' =>
         match lookup_path t cur with
         | Some (Dir _) =>
             if (name =? "") || (name =? ".") then walk rest' cur
             else if name =? ".." then walk rest' (removelast cur)
             else if name_too_long name then inl ENAMETOOLONG
             else
               match lookup_path t (cur ++ [name]) with
               | None => inl ENOENT
               | Some (Symlink target) =>
                   match hops with
                   | O => inl ELOOP
                   | S hops' =>
                       namei hops' t (target_start target cur)
                             (target_parts target ++ rest')
                   end
               | Some _ => walk rest' (cur ++ [name])
               end
         | Some _ => inl ENOTDIR
         | None => inl ENOENT
         end
     end) rest cur.

Definition start_dir (w : world) (p : PurePath) : list string :=
  match root p with
  | Relative => cwd w
  | _ => []
  end.

(** [os.stat(p)] *)
Definition stat (w : world) (p : PurePath) : oserror + node :=
  if path_too_long p then inl ENAMETOOLONG
  else
    match namei MAXSYMLINKS (fs w) (start_dir w p) (parts p) with
    | inl e => inl e
    | inr q =>
        match lookup_path (fs w) q with
        | Some n => inr n
        | None => inl ENOENT
        end
    end.

(** [pathlib._ignore_error]: the errors that mean the path is not there
    ([EBADF] does not occur here). *)
Definition ignore_error (e : oserror) : bool :=
  match e with
  | ENOENT | ENOTDIR | ELOOP => true
  | _ => false
  end.

(** [p.exists()]: [stat] succeeded; an error that [_ignore_error] accepts
    gives [False], any other [OSError] is raised again. A path with a
    null character, for which [exists()] is [False] as well, does not get
    here: [Path.resolve] refuses it. *)
Definition exists_ (w : world) (p : PurePath) : result bool :=
  match stat w p with
  | inr _ => Ok true
  | inl e => if ignore_error e then Ok false else Raise (OSError e)
  end.

(** [p.read_bytes()] *)
Definition read_bytes (w : world) (p : PurePath) : result (list byte) :=
  match stat w p with
  | inl e => Raise (OSError e)
  | inr (File true content) => Ok content
  | inr (File false _) => Raise (OSError EACCES)
  | inr (Dir _) => Raise (OSError EISDIR)
  | inr (Symlink _) => Raise (OSError ELOOP)
  end.

(** [os.listdir(p)]: the names of the direct children, in directory order.
    A directory the server may not read, for which the call raises
    [PermissionError], is outside the model. *)
Definition listdir (w : world) (p : PurePath) : result (list string) :=
  match stat w p with
  | inl e => Raise (OSError e)
  | inr (Dir entries) => Ok (map fst entries)
  | inr _ => Raise (OSError ENOTDIR)
  end.

(** *** [os.path.realpath] in its default, non-strict mode

    [posixpath._joinrealpath]: [path] is the part resolved so far, [rest]
    the components still to visit, [seen] the dictionary from the links met
    to their resolution ([None] while a link is being resolved). A
    component that cannot be inspected counts as not being a link, and [..]
    is taken lexically on the resolved part. A link met again while it is
    being resolved is a loop: up to Python 3.12 ([stop = true]) the walk
    stops with [ok = false] and the unvisited components appended; from
    3.13 on the link is kept as it is and the walk goes on. [os.lstat]
    raises [ValueError] on a name with an embedded null character. A link
    target in which two slashes in a row follow a looping link, where
    [posixpath.join] would start again from the root, is outside the
    model.

    The recursion is on the nesting depth of links being resolved. *)

Definition seen_map : Type := list (list string * option (list string)).

Fixpoint seen_get (k : list string) (seen : seen_map)
  : option (option (list string)) :=
  match seen with
  | [] => None
  | (k', v) :: seen' => if path_eq_dec k' k then Some v else seen_get k seen'
  end.

Inductive realpath_result : Type :=
| RpDone (path : list string) (ok : bool) (seen : seen_map)
| RpRaise (e : exn)
| RpDepth.

Fixpoint joinrealpath (depth : nat) (stop : bool) (t : node)
  (path rest : list string) (seen : seen_map) {struct depth}
  : realpath_result :=
  match depth with
  | O => RpDepth
  | S depth' =>
      (fix loop (rest path : list string) (seen : seen_map) {struct rest}
         : realpath_result :=
         match rest with
         | [] => RpDone path true seen
         | name :: rest' =>
             if (name =? "") || (name =? ".") then loop rest' path seen
             else if name =? ".." then loop rest' (removelast path) seen
             else if has_nul name then RpRaise ValueError
             else
               let newpath := path ++ [name] in
               match lookup_path t newpath with
               | Some (Symlink target) =>
                   match seen_get newpath seen with
                   | Some (Some cached) => loop rest' cached seen
                   | Some None =>
                       if stop then RpDone (newpath ++ rest') false seen
                       else loop rest' newpath seen
                   | None =>
                       match joinrealpath depth' stop t
                               (target_start target path)
                               (target_parts target)
                               ((newpath, None) :: seen) with
                       | RpDone p true seen' =>
                           loop rest' p ((newpath, Some p) :: seen')
                       | RpDone p false seen' =>
                           RpDone (p ++ rest') false seen'
                       | other => other
                       end
                   end
               | _ => loop rest' newpath seen
               end
         end) rest path seen
  end.

(** The paths of the links of a tree: they bound the nesting depth. *)
Fixpoint symlink_paths (n : node) : list (list string) :=
  match n with
  | File _ _ => []
  | Symlink _ => [[]]
  | Dir entries =>
      (fix of_entries (es : list (string * node)) : list (list string) :=
         match es with
         | [] => []
         | (x, child) :: es' =>
             map (cons x) (symlink_paths child) ++ of_entries es'
         end) entries
  end.

(** [os.path.normpath] on the components of an absolute path. *)
Fixpoint normparts (acc ps : list string) : list string :=
  match ps with
  | [] => acc
  | x :: ps' =>
      if (x =? "") || (x =? ".") then normparts acc ps'
      else if x =? ".." then normparts (removelast acc) ps'
      else normparts (acc ++ [x]) ps'
  end.

(** [os.path.realpath(p)]: [_joinrealpath], then [abspath]; a relative
    path is taken from the working directory. The depth given is one more
    than the number of links in the tree and is never used up
    ([realpath_depth_suffices]), so the last case is never taken. *)
Definition realpath (w : world) (p : PurePath) : result PurePath :=
  match joinrealpath (S (List.length (symlink_paths (fs w)))) (legacy w)
          (fs w) [] (start_dir w p ++ parts p) [] with
  | RpDone q _ _ => Ok (mkPath Root (normparts [] q))
  | RpRaise e => Raise e
  | RpDepth => Raise RuntimeError
  end.

(** [p.resolve()]: [realpath]; up to Python 3.12, [stat] is then called
    on the result: it raises [ValueError] on a null character, [ELOOP]
    becomes [RuntimeError], and any other outcome is ignored. *)
Definition resolve (w : world) (p : PurePath) : result PurePath :=
  q <- realpath w p;;
  if legacy w then
    if existsb has_nul (parts q) then Raise ValueError
    else
      match stat w q with
      | inl ELOOP => Raise RuntimeError
      | _ => Ok q
      end
  else Ok q.

(** ** [sorted] on [str], and [json.dumps] on a list of [str] *)

Module StringOrder <: TotalLeBool.
Definition t : Type := string.
Definition leb : t -> t -> bool := String.leb.
Theorem leb_total : forall x y : t, leb x y = true \/ leb y x = true.
Proof. exact String.leb_total. Qed.
End StringOrder.

Module StringSort := Sort StringOrder.

(** [sorted(xs)]: ascending by code point. *)
Definition sorted (xs : list string) : list string := StringSort.sort xs.

Definition dquote : ascii := ascii_of_nat 34.

Definition hex_digit (n : nat) : ascii :=
  if (n <? 10)%nat then ascii_of_nat (48 + n) else ascii_of_nat (87 + n).

(** [json.encoder.py_encode_basestring_ascii], one character. *)
Definition json_escape (c : ascii) : string :=
  let n := nat_of_ascii c in
  if (n =? 34)%nat then String "\" (String dquote "")
  else if (n =? 92)%nat then "\\"
  else if (n =? 8)%nat then "\b"
  else if (n =? 12)%nat then "\f"
  else if (n =? 10)%nat then "\n"
  else if (n =? 13)%nat then "\r"
  else if (n =? 9)%nat then "\t"
  else if (n <? 32)%nat || (126 <? n)%nat then
    "\u00" ++ String (hex_digit (n / 16)) (String (hex_digit (n mod 16)) "")
  else String c "".

Fixpoint json_escape_all (s : string) : string :=
  match s with
  | EmptyString => ""
  | String c s' => json_escape c ++ json_escape_all s'
  end.

Definition json_str (s : string) : string :=
  String dquote (json_escape_all s ++ String dquote "").

(** [json.dumps(data)] for a list of [str], default separators. *)
Definition json_dumps (data : list string) : string :=
  "[" ++ String.concat ", " (map json_str data) ++ "]".

(** ** The handler's state

    What [http.server] keeps on the handler object and writes to the
    socket and to the log, as far as the program touches it. [headers]
    holds the [send_header] calls in order (the [Server] and [Date] fields
    that [send_response] adds by itself are left out); [status] is the code
    given to [send_response]; [error_page] records that [send_error] made
    the library's error page for that code, sent after the headers;
    [static] that the request was handed to
    [SimpleHTTPRequestHandler.do_GET]; [log] holds the lines that reached
    [BaseHTTPRequestHandler.log_message]. [http.server] is modelled as of
    CPython 3.11; from that version on, [str] of a member of [HTTPStatus]
    is its number. *)

Inductive pyval : Type :=
| PyInt (n : nat)
| PyStr (s : string).

(** [str(v)] *)
Definition py_str (v : pyval) : string :=
  match v with
  | PyInt n => str_of_nat n
  | PyStr s => s
  end.

Record handler : Type := mkHandler {
  requestline : string;
  self_path : string;
  status : option nat;
  headers : list (string * string);
  body : list byte;
  error_page : option nat;
  static : bool;
  log : list (string * list pyval)
}.

(** A handler on which [parse_request] has just run. *)
Definition fresh (line target : string) : handler :=
  mkHandler line target None [] [] None false [].

Definition set_path (p : string) (h : handler) : handler :=
  mkHandler (requestline h) p (status h) (headers h) (body h)
            (error_page h) (static h) (log h).

Definition set_status (code : nat) (h : handler) : handler :=
  mkHandler (requestline h) (self_path h) (Some code) (headers h) (body h)
            (error_page h) (static h) (log h).

(** [self.send_header(k, v)] *)
Definition send_header (k v : string) (h : handler) : handler :=
  mkHandler (requestline h) (self_path h) (status h) (headers h ++ [(k, v)])
            (body h) (error_page h) (static h) (log h).

(** [self.wfile.write(data)] *)
Definition wfile_write (data : list byte) (h : handler) : handler :=
  mkHandler (requestline h) (self_path h) (status h) (headers h)
            (body h ++ data) (error_page h) (static h) (log h).

Definition set_error_page (code : nat) (h : handler) : handler :=
  mkHandler (requestline h) (self_path h) (status h) (headers h) (body h)
            (Some code) (static h) (log h).

Definition set_static (h : handler) : handler :=
  mkHandler (requestline h) (self_path h) (status h) (headers h) (body h)
            (error_page h) true (log h).

(** [super().log_message(format, *args)]: the line is written. *)
Definition super_log_message (format : string) (args : list pyval)
  (h : handler) : handler :=
  mkHandler (requestline h) (self_path h) (status h) (headers h) (body h)
            (error_page h) (static h) (log h ++ [(format, args)]).

(** [Handler.log_message] *)
Definition log_message (format : string) (args : list pyval) (h : handler)
  : handler :=
  if existsb (fun arg => py_str arg =? "404") args then h
  else super_log_message format args h.

(** The format of a request line in the log: the request line in double
    quotes, then two [%s]. *)
Definition request_format : string :=
  String dquote ("%s" ++ String dquote " %s %s")%string.

(** [BaseHTTPRequestHandler.log_request(code, size)] *)
Definition log_request (code : nat) (size : string) (h : handler) : handler :=
  log_message request_format
              [PyStr (requestline h); PyStr (str_of_nat code); PyStr size] h.

(** [BaseHTTPRequestHandler.log_error(format, *args)] *)
Definition log_error (format : string) (args : list pyval) (h : handler)
  : handler :=
  log_message format args h.

(** [self.send_response(code)]: logs the request, then writes the status
    line. *)
Definition send_response (code : nat) (h : handler) : handler :=
  set_status code (log_request code "-" h).

(** [Handler.end_headers] *)
Definition end_headers (h : handler) : handler :=
  send_header "Access-Control-Allow-Origin" "*" h.

(** [BaseHTTPRequestHandler.responses]: the reason phrase and the
    explanation of every member of [http.HTTPStatus]. *)
Definition responses : list (nat * (string * string)) :=
  [
    (100, ("Continue",
          "Request received, please continue"));
    (101, ("Switching Protocols",
          "Switching to new protocol; obey Upgrade header"));
    (102, ("Processing",
          ""));
    (103, ("Early Hints",
          ""));
    (200, ("OK",
          "Request fulfilled, document follows"));
    (201, ("Created",
          "Document created, URL follows"));
    (202, ("Accepted",
          "Request accepted, processing continues off-line"));
    (203, ("Non-Authoritative Information",
          "Request fulfilled from cache"));
    (204, ("No Content",
          "Request fulfilled, nothing follows"));
    (205, ("Reset Content",
          "Clear input form for further input"));
    (206, ("Partial Content",
          "Partial content follows"));
    (207, ("Multi-Status",
          ""));
    (208, ("Already Reported",
          ""));
    (226, ("IM Used",
          ""));
    (300, ("Multiple Choices",
          "Object has several resources -- see URI list"));
    (301, ("Moved Permanently",
          "Object moved permanently -- see URI list"));
    (302, ("Found",
          "Object moved temporarily -- see URI list"));
    (303, ("See Other",
          "Object moved -- see Method and URL list"));
    (304, ("Not Modified",
          "Document has not changed since given time"));
    (305, ("Use Proxy",
          "You must use proxy specified in Location to access this resource"));
    (307, ("Temporary Redirect",
          "Object moved temporarily -- see URI list"));
    (308, ("Permanent Redirect",
          "Object moved permanently -- see URI list"));
    (400, ("Bad Request",
          "Bad request syntax or unsupported method"));
    (401, ("Unauthorized",
          "No permission -- see authorization schemes"));
    (402, ("Payment Required",
          "No payment -- see charging schemes"));
    (403, ("Forbidden",
          "Request forbidden -- authorization will not help"));
    (404, ("Not Found",
          "Nothing matches the given URI"));
    (405, ("Method Not Allowed",
          "Specified method is invalid for this resource"));
    (406, ("Not Acceptable",
          "URI not available in preferred format"));
    (407, ("Proxy Authentication Required",
          "You must authenticate with this proxy before proceeding"));
    (408, ("Request Timeout",
          "Request timed out; try again later"));
    (409, ("Conflict",
          "Request conflict"));
    (410, ("Gone",
          "URI no longer exists and has been permanently removed"));
    (411, ("Length Required",
          "Client must specify Content-Length"));
    (412, ("Precondition Failed",
          "Precondition in headers is false"));
    (413, ("Request Entity Too Large",
          "Entity is too large"));
    (414, ("Request-URI Too Long",
          "URI is too long"));
    (415, ("Unsupported Media Type",
          "Entity body in unsupported format"));
    (416, ("Requested Range Not Satisfiable",
          "Cannot satisfy request range"));
    (417, ("Expectation Failed",
          "Expect condition could not be satisfied"));
    (418, ("I'm a Teapot",
          "Server refuses to brew coffee because it is a teapot."));
    (421, ("Misdirected Request",
          "Server is not able to produce a response"));
    (422, ("Unprocessable Entity",
          ""));
    (423, ("Locked",
          ""));
    (424, ("Failed Dependency",
          ""));
    (425, ("Too Early",
          ""));
    (426, ("Upgrade Required",
          ""));
    (428, ("Precondition Required",
          "The origin server requires the request to be conditional"));
    (429, ("Too Many Requests",
          ("The user has sent too many requests in a given amount of time (" ++ String dquote ("rate limiting" ++ String dquote ")")%string)%string));
    (431, ("Request Header Fields Too Large",
          "The server is unwilling to process the request because its header fields are too large"));
    (451, ("Unavailable For Legal Reasons",
          "The server is denying access to the resource as a consequence of a legal demand"));
    (500, ("Internal Server Error",
          "Server got itself in trouble"));
    (501, ("Not Implemented",
          "Server does not support this operation"));
    (502, ("Bad Gateway",
          "Invalid responses from another server/proxy"));
    (503, ("Service Unavailable",
          "The server cannot process the request due to a high load"));
    (504, ("Gateway Timeout",
          "The gateway server did not receive a timely response"));
    (505, ("HTTP Version Not Supported",
          "Cannot fulfill request"));
    (506, ("Variant Also Negotiates",
          ""));
    (507, ("Insufficient Storage",
          ""));
    (508, ("Loop Detected",
          ""));
    (510, ("Not Extended",
          ""));
    (511, ("Network Authentication Required",
          "The client needs to authenticate to gain network access")) ].

Fixpoint responses_get (code : nat) (table : list (nat * (string * string)))
  : option (string * string) :=
  match table with
  | [] => None
  | (c, entry) :: table' =>
      if (c =? code)%nat then Some entry else responses_get code table'
  end.

(** The message [send_error] uses when none is passed, and the
    explanation: [???] for a code that is not in the table. *)
Definition phrase (code : nat) : string :=
  match responses_get code responses with
  | Some (short, _) => short
  | None => "???"
  end.

Definition explanation (code : nat) : string :=
  match responses_get code responses with
  | Some (_, long) => long
  | None => "???"
  end.

(** [html.escape(s, quote=False)] *)
Fixpoint html_escape (s : string) : string :=
  match s with
  | EmptyString => EmptyString
  | String c s' =>
      let n := nat_of_ascii c in
      ((if (n =? 38)%nat then "&amp;"
        else if (n =? 60)%nat then "&lt;"
        else if (n =? 62)%nat then "&gt;"
        else String c EmptyString) ++ html_escape s')%string
  end.

Definition newline : string := String (ascii_of_nat 10) EmptyString.

Definition CRLF : string := String (ascii_of_nat 13) newline.

(** [DEFAULT_ERROR_MESSAGE % {'code': code, 'message': message,
    'explain': explain}] *)
Definition error_message (code : nat) (message explain : string) : string :=
  String.concat newline
    [ "<!DOCTYPE HTML>";
      ("<html lang=" ++ String dquote ("en" ++ String dquote ">"))%string;
      "    <head>";
      ("        <meta charset=" ++ String dquote ("utf-8" ++ String dquote ">"))%string;
      "        <title>Error response</title>";
      "    </head>";
      "    <body>";
      "        <h1>Error response</h1>";
      ("        <p>Error code: " ++ str_of_nat code ++ "</p>")%string;
      ("        <p>Message: " ++ message ++ ".</p>")%string;
      ("        <p>Error code explanation: " ++ str_of_nat code ++ " - "
         ++ explain ++ ".</p>")%string;
      "    </body>";
      "</html>";
      "" ].

(** The line [send_error] asks to log for a code and a message. *)
Definition error_line_logged (code : nat) (message : string)
  : string * list pyval :=
  ("code %d, message %s", [PyInt code; PyStr message]).

(** [self.send_error(code, message, explain)]: logs the error, sends the
    status line and the [Connection] header, then, unless the status
    allows no body, the type and length of the library's error page, and
    the page itself (which a HEAD request does not get). *)
Definition send_error_msg (code : nat) (message explain : option string)
  (h : handler) : handler :=
  let message := match message with Some m => m | None => phrase code end in
  let explain := match explain with Some x => x | None => explanation code end in
  let h := log_error "code %d, message %s" [PyInt code; PyStr message] h in
  let h := send_response code h in
  let h := send_header "Connection" "close" h in
  if Nat.leb 200 code
     && negb ((code =? 204)%nat || (code =? 205)%nat || (code =? 304)%nat)
  then
    let page :=
      encode (error_message code (html_escape message) (html_escape explain)) in
    let h := send_header "Content-Type" "text/html;charset=utf-8" h in
    let h := send_header "Content-Length" (str_of_nat (List.length page)) h in
    let h := end_headers h in
    set_error_page code h
  else end_headers h.

(** [self.send_error(code)] *)
Definition send_error (code : nat) (h : handler) : handler :=
  send_error_msg code None None h.

(** [super().do_GET()], the last call of [do_GET]: the request is handed
    to the library. What the library then sends, or raises, is
    [static_do_GET] below; [handle_one_request] runs it on a handler so
    marked. *)
Definition super_do_GET (h : handler) : handler := set_static h.

(** ** The program *)

Definition asset_route : Type := PurePath * string * string.
Definition single_route : Type := PurePath * string.

Section Program.

(** [BASE = Path(__file__).parent] *)
Variable BASE : PurePath.

Definition GAME : PurePath := (BASE / "game_data")%path.

Definition ASSET_ROUTES : list (string * asset_route) :=
  [ ("hlod",     ((GAME / "hlod")%path,     ".obj", "model/obj"));
    ("terrain",  ((GAME / "terrain")%path,  ".obj", "model/obj"));
    ("hlod_all", ((GAME / "hlod_all")%path, ".obj", "model/obj"));
    ("textures", ((GAME / "textures")%path, ".png", "image/png")) ].

Definition SINGLE_FILE_ROUTES : list (string * single_route) :=
  [ ("/manifest",
       ((BASE / "manifests" / "android_manifest.json")%path, "application/json"));
    ("/all_hlod_manifest",
       ((BASE / "manifests" / "all_hlod_manifest.json")%path, "application/json"));
    ("/ocean.obj",      ((BASE / "ocean.obj")%path,  "model/obj"));
    ("/ocean.glb",      ((BASE / "ocean.glb")%path,  "model/gltf-binary"));
    ("/skybox.png",     ((BASE / "skybox.png")%path, "image/png"));
    ("/overrides.json", ((BASE / "overrides.json")%path, "application/json")) ].

End Program.

(** [f"/{name}/"] *)
Definition asset_prefix (name : string) : string := ("/" ++ name ++ "/")%string.

Section Handler.

Variable w : world.

(** [safe_resolve(directory, filename)] *)
Definition safe_resolve (directory : PurePath) (filename : string)
  : result (option PurePath) :=
  try_except_ValueError_OSError
    (resolved <- resolve w (directory / filename)%path;;
     canonical <- resolve w directory;;
     if is_relative_to resolved canonical then Ok (Some resolved)
     else Ok None)
    (Ok None).

(** [list_files(directory, ext)] *)
Definition list_files (directory : PurePath) (ext : string)
  : result (list string) :=
  found <- exists_ w directory;;
  if negb found then Ok []
  else
    names <- listdir w directory;;
    Ok (sorted (filter (fun f => endswith f ext) names)).

(** [Handler._serve_json] *)
Definition _serve_json (data : list string) (h : handler) : handler :=
  let body := encode (json_dumps data) in
  let h := send_response 200 h in
  let h := send_header "Content-Type" "application/json" h in
  let h := send_header "Content-Length" (str_of_nat (List.length body)) h in
  let h := end_headers h in
  wfile_write body h.

(** [Handler._serve_file] *)
Definition _serve_file (path : PurePath) (ctype : string) (h : handler)
  : result handler :=
  found <- exists_ w path;;
  if negb found then Ok (send_error 404 h)
  else
    data <- read_bytes w path;;
    let h := send_response 200 h in
    let h := send_header "Content-Type" ctype h in
    let h := send_header "Content-Length" (str_of_nat (List.length data)) h in
    let h := send_header "Cache-Control" "public, max-age=3600" h in
    let h := end_headers h in
    Ok (wfile_write data h).

(** The end of [do_GET]: the default static files. *)
Definition static_files (path : string) (h : handler) : result handler :=
  let h := if path =? "/" then set_path "/index.html" h else h in
  Ok (super_do_GET h).

(** The [for] loop of [do_GET] over [ASSET_ROUTES.items()], followed by the
    rest of the method when no prefix matched. *)
Fixpoint asset_file_endpoints (items : list (string * asset_route))
  (path : string) (h : handler) : result handler :=
  match items with
  | [] => static_files path h
  | (name, (directory, _, ctype)) :: items' =>
      let prefix := asset_prefix name in
      if startswith path prefix then
        let filename := slice_from (String.length prefix) path in
        resolved <- safe_resolve directory filename;;
        match resolved with
        | Some resolved => _serve_file resolved ctype h
        | None => Ok (send_error 404 h)
        end
      else asset_file_endpoints items' path h
  end.

(** [Handler.do_GET], with the two route tables as parameters. *)
Definition do_GET_routes (singles : list (string * single_route))
  (assets : list (string * asset_route)) (h : handler) : result handler :=
  let path := first (split "?" (self_path h)) in
  match dict_get path singles with
  | Some (fpath, ctype) => _serve_file fpath ctype h
  | None =>
      match (if startswith path "/list_"
             then dict_get (slice_from 6 path) assets else None) with
      | Some (directory, ext, _) =>
          data <- list_files directory ext;;
          Ok (_serve_json data h)
      | None => asset_file_endpoints assets path h
      end
  end.

(** [Handler.do_GET] of the program. *)
Definition do_GET (BASE : PurePath) (h : handler) : result handler :=
  do_GET_routes (SINGLE_FILE_ROUTES BASE) (ASSET_ROUTES BASE) h.

End Handler.

(** ** The main block

    What the script does before it serves: it counts the files of every
    asset route and prints one line. *)

#[warnings="-abstract-large-number"]
Definition PORT : nat := 8080.

(** [{name: len(list_files(d, ext)) for name, (d, ext, _) in
    ASSET_ROUTES.items()}]: the routes are visited in table order, and the
    first listing that raises ends the comprehension. *)
Fixpoint route_counts (w : world) (routes : list (string * asset_route))
  : result (list (string * nat)) :=
  match routes with
  | [] => Ok []
  | (name, (d, ext, _)) :: routes' =>
      names <- list_files w d ext;;
      counts <- route_counts w routes';;
      Ok ((name, List.length names) :: counts)
  end.

(** [" | ".join(f"{n}: {c}" for n, c in counts.items())] *)
Definition summary (counts : list (string * nat)) : string :=
  String.concat " | "
    (map (fun nc => (fst nc ++ ": " ++ str_of_nat (snd nc))%string) counts).

(** The line [print] writes: [f"http://localhost:{PORT}/ | {summary}"]. *)
Definition banner (w : world) (BASE : PurePath) : result string :=
  counts <- route_counts w (ASSET_ROUTES BASE);;
  Ok ("http://localhost:" ++ str_of_nat PORT ++ "/ | " ++ summary counts)%string.

(** ** The library around [do_GET]

    [BaseHTTPRequestHandler.handle_one_request] reads the request line
    and the header lines, answers by itself what it cannot parse, and calls
    the method [do_<command>]: the program's [do_GET], the library's
    [do_HEAD], or none. Where [do_GET] ends in [super().do_GET()], the
    library's [send_head] answers.

    What [send_head] finds depends on the files below [BASE], on their
    modification times, on the host's table of MIME types and on the
    request headers; that search is not modelled and the statements hold
    for every [static_outcome]. The calls it then makes are modelled as
    they are written. *)

(** [s.rstrip('\r\n')] *)
Fixpoint rstrip_crlf (s : string) : string :=
  match s with
  | EmptyString => EmptyString
  | String c s' =>
      let r := rstrip_crlf s' in
      let n := nat_of_ascii c in
      if (r =? "") && ((n =? 13)%nat || (n =? 10)%nat) then EmptyString
      else String c r
  end.

(** [s.lstrip('/')] *)
Fixpoint lstrip_slash (s : string) : string :=
  match s with
  | String "/" s' => lstrip_slash s'
  | _ => s
  end.

(** [c.isspace()] for a code point below 256. *)
Definition isspace (c : ascii) : bool :=
  let n := nat_of_ascii c in
  (Nat.leb 9 n && Nat.leb n 13) || (Nat.leb 28 n && Nat.leb n 32)
  || (n =? 133)%nat || (n =? 160)%nat.

(** [s.split()]: the words between runs of white space; [word] is the
    word being read. *)
Fixpoint split_words (s word : string) : list string :=
  match s with
  | EmptyString => if word =? "" then [] else [word]
  | String c s' =>
      if isspace c then
        if word =? "" then split_words s' "" else word :: split_words s' ""
      else split_words s' (word ++ String c EmptyString)
  end.

(** [c.isprintable()] for a code point below 256. *)
Definition isprintable (c : ascii) : bool :=
  let n := nat_of_ascii c in
  (Nat.leb 32 n && Nat.leb n 126) || (Nat.leb 161 n && negb (n =? 173)%nat).

Fixpoint contains (c : ascii) (s : string) : bool :=
  match s with
  | EmptyString => false
  | String c' s' => Ascii.eqb c' c || contains c s'
  end.

Definition squote : ascii := ascii_of_nat 39.

Definition repr_char (quote c : ascii) : string :=
  let n := nat_of_ascii c in
  if Ascii.eqb c quote || (n =? 92)%nat then String "\" (String c EmptyString)
  else if (n =? 9)%nat then "\t"
  else if (n =? 10)%nat then "\n"
  else if (n =? 13)%nat then "\r"
  else if isprintable c then String c EmptyString
  else ("\x" ++ String (hex_digit (n / 16))
                  (String (hex_digit (n mod 16)) EmptyString))%string.

Fixpoint repr_chars (quote : ascii) (s : string) : string :=
  match s with
  | EmptyString => EmptyString
  | String c s' => (repr_char quote c ++ repr_chars quote s')%string
  end.

(** [repr(s)], what [%r] prints for a [str]. *)
Definition repr (s : string) : string :=
  let quote :=
    if contains squote s && negb (contains dquote s) then dquote else squote in
  String quote (repr_chars quote s ++ String quote EmptyString).

(** [int(s)] for a word without white space: an optional sign, then
    decimal digits with single underscores between them, 4300 digits at
    most. [None] stands for [ValueError]. *)
Definition isdigit (c : ascii) : bool :=
  let n := nat_of_ascii c in Nat.leb 48 n && Nat.leb n 57.

Fixpoint int_digits (s : string) (after_digit : bool) (value : Z) (count : nat)
  : option (Z * nat) :=
  match s with
  | EmptyString => if after_digit then Some (value, count) else None
  | String c s' =>
      if isdigit c then
        int_digits s' true (10 * value + Z.of_nat (nat_of_ascii c - 48))%Z
                   (S count)
      else if Ascii.eqb c "_" && after_digit then
        int_digits s' false value count
      else None
  end.

Definition int_unsigned (s : string) : option Z :=
  match int_digits s false 0%Z 0 with
  | Some (value, count) => if Nat.leb count 4300 then Some value else None
  | None => None
  end.

Definition py_int (s : string) : option Z :=
  match s with
  | String "+" s' => int_unsigned s'
  | String "-" s' => option_map Z.opp (int_unsigned s')
  | _ => int_unsigned s
  end.

(** The block of [parse_request] that checks the version, the last word
    of a request line of three words or more: the error it sends, if
    any. *)
Definition check_version (version : string) : option (nat * string) :=
  let bad := Some (400, ("Bad request version (" ++ repr version ++ ")")%string) in
  if negb (startswith version "HTTP/") then bad
  else
    let base_version_number := slice_from 5 version in
    match split "." base_version_number with
    | [major; minor] =>
        match py_int major, py_int minor with
        | Some major, Some minor =>
            if (Z.ltb 2 major || (Z.eqb major 2 && Z.leb 0 minor))%bool then
              Some (505, ("Invalid HTTP version (" ++ base_version_number
                          ++ ")")%string)
            else None
        | _, _ => bad
        end
    | _ => bad
    end.

(** [http.client._read_headers]: the header lines are read up to a blank
    line or the end of the input; [read] counts the lines read so far. *)
Inductive header_result : Type := HeadersRead | LineTooLong | TooManyHeaders.

Definition blank_line (line : string) : bool :=
  (line =? CRLF) || (line =? newline) || (line =? "").

Fixpoint read_headers (lines : list string) (read : nat) : header_result :=
  match lines with
  | [] => if Nat.ltb 100 (S read) then TooManyHeaders else HeadersRead
  | line :: lines' =>
      if (65536 <? N.of_nat (String.length line))%N then LineTooLong
      else if Nat.ltb 100 (S read) then TooManyHeaders
      else if blank_line line then HeadersRead
      else read_headers lines' (S read)
  end.

(** A request as it arrives: the first line, as [readline(65537)] returns
    it, and the lines that follow, decoded one character per byte. *)
Record request : Type := mkRequest {
  raw_requestline : string;
  header_lines : list string
}.

(** [BaseHTTPRequestHandler.parse_request]: the handler as it is left
    when the request is refused or empty, or the command and the handler
    to pass to the method. [protocol_version] is [HTTP/1.0], which the
    program does not change, so no header changes the course taken. *)
Definition parse_request (req : request) : handler + (string * handler) :=
  let line := rstrip_crlf (raw_requestline req) in
  let h := fresh line "" in
  let words := split_words line "" in
  match words with
  | [] => inl h
  | _ =>
      match (if Nat.leb 3 (List.length words)
             then check_version (last words "") else None) with
      | Some (code, message) => inl (send_error_msg code (Some message) None h)
      | None =>
          if negb (Nat.leb 2 (List.length words)
                   && Nat.leb (List.length words) 3) then
            inl (send_error_msg 400
                   (Some ("Bad request syntax (" ++ repr line ++ ")")%string)
                   None h)
          else
            let command := nth 0 words "" in
            let path := nth 1 words "" in
            if (List.length words =? 2)%nat && negb (command =? "GET") then
              inl (send_error_msg 400
                     (Some ("Bad HTTP/0.9 request type (" ++ repr command
                            ++ ")")%string)
                     None h)
            else
              let path :=
                if startswith path "//" then ("/" ++ lstrip_slash path)%string
                else path in
              let h := set_path path h in
              match read_headers (header_lines req) 0 with
              | LineTooLong =>
                  inl (send_error_msg 431 (Some "Line too long")
                         (Some "got more than 65536 bytes when reading header line")
                         h)
              | TooManyHeaders =>
                  inl (send_error_msg 431 (Some "Too many headers")
                         (Some "got more than 100 headers") h)
              | HeadersRead => inr (command, h)
              end
      end
  end.

(** The ways [SimpleHTTPRequestHandler.send_head] ends: a directory asked
    for without the final slash, a directory without an index file (listed
    by [list_directory], or not), a file that cannot be opened or a path
    ending with a slash, a file not modified since the date the request
    gives, a file to send, or an exception. *)
Inductive static_outcome : Type :=
| Redirected (new_url : string)
| Listed (enc : string) (page : list byte)
| ListingRefused
| FileNotFound
| NotModified
| Served (ctype : string) (size : nat) (modified : string) (content : list byte)
| StaticRaised (e : exn).

(** [SimpleHTTPRequestHandler.send_head]: the handler and the file object
    returned, if any. *)
Definition send_head (found : static_outcome) (h : handler)
  : result (handler * option (list byte)) :=
  match found with
  | Redirected new_url =>
      let h := send_response 301 h in
      let h := send_header "Location" new_url h in
      let h := send_header "Content-Length" "0" h in
      Ok (end_headers h, None)
  | Listed enc page =>
      let h := send_response 200 h in
      let h := send_header "Content-type" ("text/html; charset=" ++ enc)%string h in
      let h := send_header "Content-Length" (str_of_nat (List.length page)) h in
      Ok (end_headers h, Some page)
  | ListingRefused =>
      Ok (send_error_msg 404 (Some "No permission to list directory") None h,
          None)
  | FileNotFound =>
      Ok (send_error_msg 404 (Some "File not found") None h, None)
  | NotModified =>
      Ok (end_headers (send_response 304 h), None)
  | Served ctype size modified content =>
      let h := send_response 200 h in
      let h := send_header "Content-type" ctype h in
      let h := send_header "Content-Length" (str_of_nat size) h in
      let h := send_header "Last-Modified" modified h in
      Ok (end_headers h, Some content)
  | StaticRaised e => Raise e
  end.

(** [SimpleHTTPRequestHandler.do_GET]: [send_head], then [copyfile]. *)
Definition static_do_GET (found : static_outcome) (h : handler)
  : result handler :=
  sent <- send_head found h;;
  match snd sent with
  | Some data => Ok (wfile_write data (fst sent))
  | None => Ok (fst sent)
  end.

(** [SimpleHTTPRequestHandler.do_HEAD] *)
Definition static_do_HEAD (found : static_outcome) (h : handler)
  : result handler :=
  sent <- send_head found h;;
  Ok (fst sent).

(** [BaseHTTPRequestHandler.handle_one_request] for the program's
    [Handler]. A handler that [do_GET] returns with [static] set is one it
    has passed to [super().do_GET()]. *)
Definition handle_one_request (w : world) (BASE : PurePath) (req : request)
  (found : static_outcome) : result handler :=
  let raw := raw_requestline req in
  if (65536 <? N.of_nat (String.length raw))%N then
    Ok (send_error 414 (fresh "" ""))
  else if raw =? "" then Ok (fresh "" "")
  else
    match parse_request req with
    | inl h => Ok h
    | inr (command, h) =>
        if command =? "GET" then
          h' <- do_GET w BASE h;;
          if static h' then static_do_GET found h' else Ok h'
        else if command =? "HEAD" then static_do_HEAD found h
        else
          Ok (send_error_msg 501
                (Some ("Unsupported method (" ++ repr command ++ ")")%string)
                None h)
    end.

(** ** The classification of the dispatcher, as its specification words it

    Four rules tried in order, the first match wins: a singleton whose URL
    path equals the request path; a listing [/list_<name>] for a known
    asset route; an asset file [/<name>/<file>] for a known asset route,
    with everything after the prefix as the candidate; the fallback. *)

(** [self.path.split("?")[0]] *)
Definition request_path (h : handler) : string :=
  first (split "?" (self_path h)).

Inductive route_match : Type :=
| SingletonMatch (file : PurePath) (ctype : string)
| ListMatch (directory : PurePath) (ext : string)
| AssetMatch (directory : PurePath) (ctype : string) (filename : string)
| Fallback.

Definition spec_singleton (singles : list (string * single_route))
  (path : string) : option (string * single_route) :=
  find (fun r => fst r =? path) singles.

Definition spec_listing (assets : list (string * asset_route))
  (path : string) : option (string * asset_route) :=
  find (fun r => path =? ("/list_" ++ fst r)%string) assets.

Definition spec_asset (assets : list (string * asset_route))
  (path : string) : option (string * asset_route) :=
  find (fun r => startswith path (asset_prefix (fst r))) assets.

Definition spec_classify (singles : list (string * single_route))
  (assets : list (string * asset_route)) (path : string) : route_match :=
  match spec_singleton singles path with
  | Some (_, (file, ctype)) => SingletonMatch file ctype
  | None =>
      match spec_listing assets path with
      | Some (_, (directory, ext, _)) => ListMatch directory ext
      | None =>
          match spec_asset assets path with
          | Some (name, (directory, _, ctype)) =>
              AssetMatch directory ctype
                (slice_from (String.length (asset_prefix name)) path)
          | None => Fallback
          end
      end
  end.

(** What each rule answers. *)
Definition respond (w : world) (m : route_match) (path : string) (h : handler)
  : result handler :=
  match m with
  | SingletonMatch file ctype => _serve_file w file ctype h
  | ListMatch directory ext =>
      data <- list_files w directory ext;;
      Ok (_serve_json data h)
  | AssetMatch directory ctype filename =>
      resolved <- safe_resolve w directory filename;;
      match resolved with
      | Some resolved => _serve_file w resolved ctype h
      | None => Ok (send_error 404 h)
      end
  | Fallback => static_files path h
  end.

(** ** What the statements observe *)

(** A result with the handler's [path] attribute left out: the reply and
    the log. *)
Definition without_path (r : result handler) : result handler :=
  match r with
  | Ok h => Ok (set_path "" h)
  | Raise e => Raise e
  end.

(** A 200 reply on top of [h]: the status line, the given header fields and
    the data, with the request logged by [send_response]. *)
Definition reply_200 (h : handler) (fields : list (string * string))
  (data : list byte) : handler :=
  mkHandler (requestline h) (self_path h) (Some 200) (headers h ++ fields)
            (body h ++ data) (error_page h) (static h)
            (log (log_request 200 "-" h)).

(** The header fields [_serve_json] sends for a body. *)
Definition json_fields (data : list byte) : list (string * string) :=
  [("Content-Type", "application/json");
   ("Content-Length", str_of_nat (List.length data));
   ("Access-Control-Allow-Origin", "*")].

(** The header fields [_serve_file] sends for a content type and a body. *)
Definition file_fields (ctype : string) (data : list byte)
  : list (string * string) :=
  [("Content-Type", ctype);
   ("Content-Length", str_of_nat (List.length data));
   ("Cache-Control", "public, max-age=3600");
   ("Access-Control-Allow-Origin", "*")].

(** The [Content-Length] field of a reply, read back as a number. *)
Definition content_length (h : handler) : option nat :=
  match dict_get "Content-Length" (headers h) with
  | Some v => nat_of_str v
  | None => None
  end.

(** The handler states [do_GET] can return from [h]: the 404 of
    [send_error], a 200 carrying a listing, a 200 carrying the bytes read
    from a file, or the handler passed on to the static fallback. *)
Inductive reply_of (w : world) (h : handler) : handler -> Prop :=
| reply_not_found : reply_of w h (send_error 404 h)
| reply_listing (names : list string) :
    reply_of w h (reply_200 h (json_fields (encode (json_dumps names)))
                            (encode (json_dumps names)))
| reply_file (path : PurePath) (ctype : string) (data : list byte) :
    read_bytes w path = Ok data ->
    reply_of w h (reply_200 h (file_fields ctype data) data)
| reply_static : reply_of w h (super_do_GET h)
| reply_index : reply_of w h (super_do_GET (set_path "/index.html" h)).

(** The line [log_request] asks to log for a status code. *)
Definition request_line_logged (line : string) (code : nat)
  : string * list pyval :=
  (request_format, [PyStr line; PyStr (str_of_nat code); PyStr "-"]).

(** The log of a reply follows its status: it is empty when the status is
    404, and otherwise holds the request line with the status, after the
    error line when the reply is an error. *)
Definition logged_by_status (line : string) (h' : handler) : Prop :=
  requestline h' = line /\
  forall code : nat,
    status h' = Some code ->
    (log h' = [] <-> code = 404) /\
    (code <> 404 ->
     log h' = [request_line_logged line code] \/
     exists message,
       log h' = [error_line_logged code message;
                 request_line_logged line code]).

(** [ASSET_ROUTES["hlod"][0]] *)
Definition hlod_dir (BASE : PurePath) : PurePath := (GAME BASE / "hlod")%path.

(** *** Reading a JSON string back

    What a JSON reader does with the text of one string: [read_str] takes
    the text after the opening quote and gives the string and what follows
    the closing quote. *)

Definition unhex (c : ascii) : nat :=
  let n := nat_of_ascii c in
  if (n <? 58)%nat then n - 48 else n - 87.

Definition unescape (e : ascii) : ascii :=
  let n := nat_of_ascii e in
  if (n =? 98)%nat then ascii_of_nat 8
  else if (n =? 102)%nat then ascii_of_nat 12
  else if (n =? 110)%nat then ascii_of_nat 10
  else if (n =? 114)%nat then ascii_of_nat 13
  else if (n =? 116)%nat then ascii_of_nat 9
  else e.

Definition push (c : ascii) (r : option (string * string))
  : option (string * string) :=
  match r with
  | Some (s, rest) => Some (String c s, rest)
  | None => None
  end.

Fixpoint read_str (s : string) : option (string * string) :=
  match s with
  | EmptyString => None
  | String c s1 =>
      if (nat_of_ascii c =? 34)%nat then Some (EmptyString, s1)
      else if (nat_of_ascii c =? 92)%nat then
        match s1 with
        | EmptyString => None
        | String e s2 =>
            if (nat_of_ascii e =? 117)%nat then
              match s2 with
              | String _ (String _ (String a (String b s3))) =>
                  push (ascii_of_nat (16 * unhex a + unhex b)) (read_str s3)
              | _ => None
              end
            else push (unescape e) (read_str s2)
        end
      else push c (read_str s1)
  end.

(** Every character of [s] is below 128. *)
Definition is_ascii (s : string) : bool :=
  forallb (fun c => (N_of_ascii c <? 128)%N) (list_ascii_of_string s).

(** ** Side conditions on paths and trees *)

(** A component that names an entry: not empty, not [.], not [..], and
    without a null character. *)
Definition plain (x : string) : bool :=
  keep_part x && negb (x =? "..") && negb (has_nul x).

(** The canonical path [p] names a symbolic link. *)
Definition is_link (t : node) (p : list string) : bool :=
  match lookup_path t p with
  | Some (Symlink _) => true
  | _ => false
  end.

(** None of [path/x1], [path/x1/x2], ... is a symbolic link. *)
Fixpoint no_link_along (t : node) (path ps : list string) : bool :=
  match ps with
  | [] => true
  | x :: ps' =>
      negb (is_link t (path ++ [x])) && no_link_along t (path ++ [x]) ps'
  end.

(** No component of the canonical path [p] is a symbolic link. *)
Definition link_free (t : node) (p : list string) : bool :=
  no_link_along t [] p.

(** The link [k] is being resolved: [seen[k] is None]. *)
Definition is_open (seen : seen_map) (k : list string) : bool :=
  match seen_get k seen with
  | Some None => true
  | _ => false
  end.

(** The links of the tree that are not being resolved. *)
Definition idle_links (t : node) (seen : seen_map) : list (list string) :=
  filter (fun k => negb (is_open seen k)) (symlink_paths t).

(** ** Example file systems

    The program installed in [/srv/app]: three entries in [game_data/hlod],
    a manifest, and a file [secret.obj] beside [game_data]. The examples
    run under an interpreter up to 3.12. *)

Definition text (s : string) : node := File true (encode s).

Definition demo_hlod : list (string * node) :=
  [("b.obj", text "o b"); ("a.obj", text "o a"); ("c.txt", text "notes")].

Definition demo_tree (hlod : list (string * node)) (secret : node) : node :=
  Dir [("srv", Dir [("app", Dir [
          ("game_data", Dir [("hlod", Dir hlod)]);
          ("manifests", Dir [("android_manifest.json", text "{}")]);
          ("secret.obj", secret)])]);
       ("etc", Dir [("passwd", text "root")])].

Definition demo_BASE : PurePath := mkPath Root ["srv"; "app"].

Definition demo : world :=
  mkWorld (demo_tree demo_hlod (text "secret")) ["srv"; "app"] true.

(** The request for [/hlod/../../secret.obj]. *)
Definition escaping_request : handler :=
  fresh "GET /hlod/../../secret.obj HTTP/1.1" "/hlod/../../secret.obj".

(** [secret.obj] is a link to [game_data/hlod/a.obj]. *)
Definition aliased_secret : world :=
  mkWorld (demo_tree demo_hlod (Symlink "game_data/hlod/a.obj"))
          ["srv"; "app"] true.

(** [hlod] holds a link [evil.obj] to [/etc/passwd]. *)
Definition linked_hlod : world :=
  mkWorld (demo_tree (("evil.obj", Symlink "/etc/passwd") :: demo_hlod)
                     (text "secret"))
          ["srv"; "app"] true.

(** [game_data/hlod] is itself a link, to [/mnt/hlod]. *)
Definition moved_hlod : world :=
  mkWorld (Dir [("srv", Dir [("app", Dir [
                   ("game_data", Dir [("hlod", Symlink "/mnt/hlod")])])]);
                ("mnt", Dir [("hlod", Dir demo_hlod)])])
          ["srv"; "app"] true.

(** [hlod] holds a file that may not be read. *)
Definition locked_file : world :=
  mkWorld (demo_tree (("locked.obj", File false []) :: demo_hlod)
                     (text "secret"))
          ["srv"; "app"] true.

(** [hlod] holds a link [loop] to itself. *)
Definition looping_link : world :=
  mkWorld (demo_tree (("loop", Symlink "loop") :: demo_hlod) (text "secret"))
          ["srv"; "app"] true.

(** [hlod] holds a link [loop] to itself and a link [evil] to [/etc]. *)
Definition looped_escape : world :=
  mkWorld (demo_tree (("loop", Symlink "loop") :: ("evil", Symlink "/etc")
                        :: demo_hlod) (text "secret"))
          ["srv"; "app"] true.

(** Beside [hlod] there is a directory [hlod-evil], whose name begins with
    the name of the route's directory. *)
Definition sibling_dir : world :=
  mkWorld (Dir [("srv", Dir [("app", Dir [
                   ("game_data", Dir [("hlod", Dir demo_hlod);
                                      ("hlod-evil", Dir [("x.obj", text "evil")])])])])])
          ["srv"; "app"] true.

(** [hlod] has one more entry, [d.obj]. *)
Definition one_more_file : world :=
  mkWorld (demo_tree (("d.obj", text "o d") :: demo_hlod) (text "secret"))
          ["srv"; "app"] true.

(** [game_data/hlod] is a regular file. *)
Definition hlod_is_file : world :=
  mkWorld (Dir [("srv", Dir [("app", Dir [
                   ("game_data", Dir [("hlod", text "not a directory")])])])])
          ["srv"; "app"] true.

(** * Properties *)

(** ** Strings *)

Lemma startswith_app (p s : string) : startswith (p ++ s) p = true.
Proof.
  unfold startswith. induction p as [|c p IH]; simpl.
  - now destruct s.
  - destruct (ascii_dec c c); [exact IH | congruence].
Qed.


Lemma startswith_inv (s p : string) :
  startswith s p = true -> s = (p ++ slice_from (String.length p) s)%string.
Proof.
  unfold startswith. revert s. induction p as [|c p IH]; intros s H; simpl.
  - reflexivity.
  - destruct s as [|d s]; simpl in H; [discriminate|].
    destruct (ascii_dec c d) as [->|]; [|discriminate].
    simpl. f_equal. now apply IH.
Qed.

Lemma app_inv_head_string (p s1 s2 : string) :
  (p ++ s1 = p ++ s2)%string -> s1 = s2.
Proof. induction p as [|c p IH]; simpl; intros H; [exact H | injection H; auto]. Qed.

Lemma first_split_app (c : ascii) (p q : string) :
  first (split c (p ++ String c q)) = first (split c p).
Proof.
  induction p as [|d p IH]; simpl.
  - now rewrite Ascii.eqb_refl.
  - destruct (Ascii.eqb d c); [reflexivity|].
    unfold first in IH.
    destruct (split c (p ++ String c q)), (split c p); simpl in *; congruence.
Qed.

(** ** The dispatcher follows the four rules in order *)

Lemma dict_get_find {V : Type} (k : string) (d : list (string * V)) :
  dict_get k d = option_map snd (find (fun r => fst r =? k) d).
Proof.
  induction d as [|[k' v] d IH]; simpl; [reflexivity|].
  destruct (k' =? k); [reflexivity | exact IH].
Qed.

Lemma prefixed_eqb (p s name : string) :
  (s =? p ++ name) =
  startswith s p && (name =? slice_from (String.length p) s).
Proof.
  destruct (startswith s p) eqn:E; simpl.
  - apply startswith_inv in E.
    destruct (String.eqb_spec name (slice_from (String.length p) s)) as [->|N].
    + rewrite <- E. apply String.eqb_refl.
    + apply String.eqb_neq. intros H. rewrite E in H.
      apply app_inv_head_string in H. congruence.
  - apply String.eqb_neq. intros ->.
    now rewrite (startswith_app p name) in E.
Qed.

Lemma listing_form (path name : string) :
  (path =? "/list_" ++ name) =
  startswith path "/list_" && (name =? slice_from 6 path).
Proof. exact (prefixed_eqb "/list_" path name). Qed.

Lemma listing_rule (assets : list (string * asset_route)) (path : string) :
  (if startswith path "/list_" then dict_get (slice_from 6 path) assets
   else None) = option_map snd (spec_listing assets path).
Proof.
  unfold spec_listing.
  induction assets as [|[name v] assets IH]; cbn [find fst dict_get].
  - now destruct (startswith path "/list_").
  - rewrite listing_form.
    destruct (startswith path "/list_"); cbn [andb] in *; [|exact IH].
    destruct (name =? slice_from 6 path); [reflexivity | exact IH].
Qed.

Lemma asset_rule (w : world) (assets : list (string * asset_route))
  (path : string) (h : handler) :
  asset_file_endpoints w assets path h =
  match spec_asset assets path with
  | Some (name, (directory, _, ctype)) =>
      respond w (AssetMatch directory ctype
                   (slice_from (String.length (asset_prefix name)) path)) path h
  | None => respond w Fallback path h
  end.
Proof.
  unfold spec_asset.
  induction assets as [|[name [[directory ext] ctype]] assets IH];
    cbn [asset_file_endpoints find fst respond].
  - reflexivity.
  - destruct (startswith path (asset_prefix name)); [reflexivity | exact IH].
Qed.

Lemma do_GET_routes_classified (w : world)
  (singles : list (string * single_route))
  (assets : list (string * asset_route)) (h : handler) :
  do_GET_routes w singles assets h =
  respond w (spec_classify singles assets (request_path h)) (request_path h) h.
Proof.
  unfold do_GET_routes, spec_classify, spec_singleton.
  fold (request_path h).
  rewrite dict_get_find, listing_rule, asset_rule.
  destruct (find (fun r => fst r =? request_path h) singles)
    as [[k [file ctype]]|]; simpl; [reflexivity|].
  destruct (spec_listing assets (request_path h))
    as [[k [[directory ext] ctype]]|]; simpl; [reflexivity|].
  destruct (spec_asset assets (request_path h))
    as [[k [[directory ext] ctype]]|]; reflexivity.
Qed.

Lemma singleton_first (w : world) (singles : list (string * single_route))
  (assets : list (string * asset_route)) (h : handler)
  (file : PurePath) (ctype : string) :
  dict_get (request_path h) singles = Some (file, ctype) ->
  do_GET_routes w singles assets h = _serve_file w file ctype h.
Proof. intros H. unfold do_GET_routes. fold (request_path h). now rewrite H. Qed.

Lemma request_path_manifest (h : handler) (q : string) :
  self_path h = "/manifest" \/ self_path h = ("/manifest?" ++ q)%string ->
  request_path h = "/manifest".
Proof.
  unfold request_path. intros [-> | ->]; [reflexivity|].
  change ("/manifest?" ++ q)%string with ("/manifest" ++ String "?" q)%string.
  now rewrite first_split_app.
Qed.

(** C4. The dispatcher classifies a request by four rules tried in order,
    the first match deciding: a singleton whose URL path is the request path,
    then a listing [/list_<name>] of a known asset route, then the first
    asset route whose prefix [/<name>/] starts the path, then the static
    fallback. This holds for any route tables, so a singleton wins over any
    other rule that would match the same path; for the program's tables,
    [/manifest] (with or without a query) gets the singleton's file,
    [manifests/android_manifest.json] as [application/json]. *)
Theorem C4_dispatch_order :
  (forall w singles assets h,
      do_GET_routes w singles assets h =
      respond w (spec_classify singles assets (request_path h))
              (request_path h) h) /\
  (forall w BASE line q,
      do_GET w BASE (fresh line "/manifest") =
      _serve_file w (BASE / "manifests" / "android_manifest.json")%path
                  "application/json" (fresh line "/manifest") /\
      do_GET w BASE (fresh line ("/manifest?" ++ q)) =
      _serve_file w (BASE / "manifests" / "android_manifest.json")%path
                  "application/json" (fresh line ("/manifest?" ++ q))).
Proof.
  split; [exact do_GET_routes_classified|].
  intros w BASE line q. split.
  - reflexivity.
  - unfold do_GET. apply singleton_first.
    rewrite (request_path_manifest _ q) by (right; reflexivity).
    reflexivity.
Qed.

(** ** The query string takes no part in routing *)

Lemma request_path_query (h : handler) (p q : string) :
  request_path (set_path (p ++ "?" ++ q) h) = request_path (set_path p h).
Proof. unfold request_path. simpl self_path. apply first_split_app. Qed.

Lemma log_message_set_path (format : string) (args : list pyval) (p : string)
  (h : handler) :
  log_message format args (set_path p h) =
  set_path p (log_message format args h).
Proof.
  unfold log_message.
  destruct (existsb (fun arg => py_str arg =? "404") args); reflexivity.
Qed.

Lemma send_response_set_path (code : nat) (p : string) (h : handler) :
  send_response code (set_path p h) = set_path p (send_response code h).
Proof.
  unfold send_response, log_request.
  cbn [requestline set_path]. now rewrite log_message_set_path.
Qed.

Lemma send_error_msg_set_path (code : nat) (message explain : option string)
  (p : string) (h : handler) :
  send_error_msg code message explain (set_path p h) =
  set_path p (send_error_msg code message explain h).
Proof.
  unfold send_error_msg, log_error.
  rewrite log_message_set_path, send_response_set_path.
  now destruct (Nat.leb 200 code && _).
Qed.

Lemma send_error_set_path (code : nat) (p : string) (h : handler) :
  send_error code (set_path p h) = set_path p (send_error code h).
Proof. apply send_error_msg_set_path. Qed.

Lemma serve_json_set_path (data : list string) (p : string) (h : handler) :
  _serve_json data (set_path p h) = set_path p (_serve_json data h).
Proof. unfold _serve_json. now rewrite send_response_set_path. Qed.

Lemma serve_file_without_path (w : world) (file : PurePath) (ctype p : string)
  (h : handler) :
  without_path (_serve_file w file ctype (set_path p h)) =
  without_path (_serve_file w file ctype h).
Proof.
  unfold _serve_file.
  destruct (exists_ w file) as [[|]|e]; cbn [bind negb].
  - destruct (read_bytes w file); cbn [bind]; [|reflexivity].
    now rewrite send_response_set_path.
  - now rewrite send_error_set_path.
  - reflexivity.
Qed.

Lemma respond_without_path (w : world) (m : route_match) (path p : string)
  (h : handler) :
  without_path (respond w m path (set_path p h)) =
  without_path (respond w m path h).
Proof.
  destruct m as [file ctype | directory ext | directory ctype filename | ];
    cbn [respond].
  - apply serve_file_without_path.
  - destruct (list_files w directory ext); cbn [bind]; [|reflexivity].
    now rewrite serve_json_set_path.
  - destruct (safe_resolve w directory filename) as [[resolved|]|];
      cbn [bind]; [apply serve_file_without_path | | reflexivity].
    now rewrite send_error_set_path.
  - unfold static_files. destruct (path =? "/"); reflexivity.
Qed.

Lemma do_GET_routes_query (w : world) (singles : list (string * single_route))
  (assets : list (string * asset_route)) (h : handler) (p q : string) :
  without_path (do_GET_routes w singles assets (set_path (p ++ "?" ++ q) h)) =
  without_path (do_GET_routes w singles assets (set_path p h)).
Proof.
  rewrite !do_GET_routes_classified, request_path_query.
  now rewrite respond_without_path, (respond_without_path _ _ _ p).
Qed.

(** C10. Routing looks only at the text before the first [?]: for every
    path [p] and query [q], the request for [p?q] has the request path of
    the request for [p], falls under the same rule, and gets the same reply
    and log; only the handler's own [path] attribute, which keeps the query
    for the static fallback, can differ. [/manifest?v=2] is the singleton
    [/manifest]. *)
Theorem C10_query_string_ignored :
  forall (w : world) (BASE : PurePath) (h : handler) (p q : string),
    request_path (set_path (p ++ "?" ++ q) h) = request_path (set_path p h) /\
    spec_classify (SINGLE_FILE_ROUTES BASE) (ASSET_ROUTES BASE)
                  (request_path (set_path (p ++ "?" ++ q) h)) =
    spec_classify (SINGLE_FILE_ROUTES BASE) (ASSET_ROUTES BASE)
                  (request_path (set_path p h)) /\
    without_path (do_GET w BASE (set_path (p ++ "?" ++ q) h)) =
    without_path (do_GET w BASE (set_path p h)) /\
    spec_classify (SINGLE_FILE_ROUTES BASE) (ASSET_ROUTES BASE)
                  (request_path (set_path "/manifest?v=2" h)) =
    SingletonMatch (BASE / "manifests" / "android_manifest.json")%path
                   "application/json".
Proof.
  intros w BASE h p q. repeat split.
  - apply request_path_query.
  - now rewrite request_path_query.
  - apply do_GET_routes_query.
Qed.

(** ** A listing request for an unknown name falls through *)

Lemma dict_in_false {V : Type} (k : string) (d : list (string * V)) :
  dict_in k d = false -> dict_get k d = None.
Proof. unfold dict_in. now destruct (dict_get k d). Qed.

Lemma listing_miss_continues (w : world)
  (singles : list (string * single_route))
  (assets : list (string * asset_route)) (h : handler) (name : string) :
  request_path h = ("/list_" ++ name)%string ->
  dict_in (request_path h) singles = false ->
  dict_in name assets = false ->
  do_GET_routes w singles assets h =
  asset_file_endpoints w assets (request_path h) h.
Proof.
  intros Hp Hs Ha. unfold do_GET_routes. fold (request_path h).
  rewrite (dict_in_false _ _ Hs), Hp.
  change (slice_from 6 ("/list_" ++ name)) with name.
  rewrite (dict_in_false _ _ Ha).
  now destruct (startswith ("/list_" ++ name) "/list_").
Qed.

Lemma no_prefix_static (w : world) (assets : list (string * asset_route))
  (path : string) (h : handler) :
  forallb (fun r => negb (startswith path (asset_prefix (fst r)))) assets = true ->
  asset_file_endpoints w assets path h = static_files path h.
Proof.
  induction assets as [|[name [[directory ext] ctype]] assets IH];
    cbn [asset_file_endpoints forallb fst]; [reflexivity|].
  intros H. apply andb_prop in H as [H1 H2].
  destruct (startswith path (asset_prefix name)); [discriminate | auto].
Qed.

(** C6. A request path [/list_<name>] whose [<name>] is no asset route gets
    no 404 from the listing rule: the dispatcher goes on to the asset-file
    loop and, no prefix [/<name>/] of the program matching a path that
    begins [/list_], ends in the static fallback with the handler
    untouched: no status line written, the path kept. *)
Theorem C6_unknown_listing_falls_through :
  forall (w : world) (BASE : PurePath) (h : handler) (name : string),
    request_path h = ("/list_" ++ name)%string ->
    dict_in name (ASSET_ROUTES BASE) = false ->
    do_GET w BASE h =
      asset_file_endpoints w (ASSET_ROUTES BASE) (request_path h) h /\
    do_GET w BASE h = Ok (super_do_GET h) /\
    status (super_do_GET h) = status h /\
    static (super_do_GET h) = true.
Proof.
  intros w BASE h name Hp Ha.
  assert (E : do_GET w BASE h =
              asset_file_endpoints w (ASSET_ROUTES BASE) (request_path h) h).
  { unfold do_GET. apply (listing_miss_continues _ _ _ _ name); auto.
    rewrite Hp. reflexivity. }
  repeat split; auto.
  rewrite E, no_prefix_static by (rewrite Hp; reflexivity).
  unfold static_files. rewrite Hp. reflexivity.
Qed.

Lemma C6_unknown_listing_witness :
  do_GET (mkWorld (Dir []) [] false) (mkPath Root ["srv"])
         (fresh "GET /list_foo?x=1 HTTP/1.1" "/list_foo?x=1") =
  Ok (super_do_GET (fresh "GET /list_foo?x=1 HTTP/1.1" "/list_foo?x=1")).
Proof.
  apply (C6_unknown_listing_falls_through
           (mkWorld (Dir []) [] false) (mkPath Root ["srv"])
           (fresh "GET /list_foo?x=1 HTTP/1.1" "/list_foo?x=1") "foo");
    reflexivity.
Defined.

(** ** What [send_error(404)] leaves on the handler *)

Lemma log_error_404 (message : string) (h : handler) :
  log_error "code %d, message %s" [PyInt 404; PyStr message] h = h.
Proof. reflexivity. Qed.

Lemma log_request_404 (h : handler) : log_request 404 "-" h = h.
Proof.
  unfold log_request, log_message. cbn [existsb py_str].
  destruct (requestline h =? "404"); reflexivity.
Qed.

Lemma send_error_404 (h : handler) :
  send_error 404 h =
  mkHandler (requestline h) (self_path h) (Some 404)
            (headers h ++ [("Connection", "close");
                           ("Content-Type", "text/html;charset=utf-8");
                           ("Content-Length", "330");
                           ("Access-Control-Allow-Origin", "*")])
            (body h) (Some 404) (static h) (log h).
Proof.
  unfold send_error, send_error_msg.
  change (phrase 404) with "Not Found". rewrite log_error_404.
  unfold send_response. rewrite log_request_404.
  change (str_of_nat (List.length _)) with "330".
  unfold end_headers, send_header, set_error_page, set_status; cbn.
  now rewrite <- !app_assoc.
Qed.

(** ** A matched asset prefix answers 404 and stops *)

Lemma asset_route_names (BASE : PurePath) (name : string) (r : asset_route) :
  dict_get name (ASSET_ROUTES BASE) = Some r ->
  (name = "hlod" /\ r = ((GAME BASE / "hlod")%path, ".obj", "model/obj")) \/
  (name = "terrain" /\ r = ((GAME BASE / "terrain")%path, ".obj", "model/obj")) \/
  (name = "hlod_all" /\ r = ((GAME BASE / "hlod_all")%path, ".obj", "model/obj")) \/
  (name = "textures" /\ r = ((GAME BASE / "textures")%path, ".png", "image/png")).
Proof.
  unfold ASSET_ROUTES. cbn [dict_get]. intros H.
  destruct (String.eqb_spec "hlod" name) as [<-|_]; [left; split; congruence|].
  destruct (String.eqb_spec "terrain" name) as [<-|_];
    [right; left; split; congruence|].
  destruct (String.eqb_spec "hlod_all" name) as [<-|_];
    [right; right; left; split; congruence|].
  destruct (String.eqb_spec "textures" name) as [<-|_];
    [right; right; right; split; congruence | discriminate].
Qed.

(** The request path [/<name>/<filename>] of a route of the program reaches
    that route's branch of the loop, with [<filename>] as the candidate. *)
Lemma asset_request_reaches_route (w : world) (BASE : PurePath) (h : handler)
  (name filename : string) (directory : PurePath) (ext ctype : string) :
  dict_get name (ASSET_ROUTES BASE) = Some (directory, ext, ctype) ->
  request_path h = (asset_prefix name ++ filename)%string ->
  do_GET w BASE h =
  (resolved <- safe_resolve w directory filename;;
   match resolved with
   | Some resolved => _serve_file w resolved ctype h
   | None => Ok (send_error 404 h)
   end).
Proof.
  intros Hr Hp. unfold do_GET, do_GET_routes. fold (request_path h).
  rewrite Hp.
  apply asset_route_names in Hr as [[-> E]|[[-> E]|[[-> E]|[-> E]]]];
    injection E as -> -> ->; destruct filename; reflexivity.
Qed.

(** For a request path [/<name>/<filename>] with [<name>] an asset route
    of the program: when [safe_resolve] rejects [<filename>], or returns a
    path for which [exists()] is false, the answer is the 404 of
    [send_error] and nothing else: the handler is not passed to the static
    fallback. *)
Theorem asset_miss_answers_404 :
  forall (w : world) (BASE : PurePath) (h : handler)
         (name filename : string) (directory : PurePath) (ext ctype : string),
    dict_get name (ASSET_ROUTES BASE) = Some (directory, ext, ctype) ->
    request_path h = (asset_prefix name ++ filename)%string ->
    safe_resolve w directory filename = Ok None \/
    (exists resolved,
        safe_resolve w directory filename = Ok (Some resolved) /\
        exists_ w resolved = Ok false) ->
    do_GET w BASE h = Ok (send_error 404 h) /\
    status (send_error 404 h) = Some 404 /\
    static (send_error 404 h) = static h.
Proof.
  intros w BASE h name filename directory ext ctype Hr Hp Hmiss.
  split; [|split].
  - rewrite (asset_request_reaches_route w BASE h name filename
               directory ext ctype Hr Hp).
    destruct Hmiss as [-> | [resolved [-> Hex]]]; cbn [bind]; [reflexivity|].
    unfold _serve_file. now rewrite Hex.
  - now rewrite send_error_404.
  - now rewrite send_error_404.
Qed.

Lemma asset_miss_witness :
  do_GET demo demo_BASE
         (fresh "GET /hlod/../../secret.obj HTTP/1.1" "/hlod/../../secret.obj") =
  Ok (send_error 404
        (fresh "GET /hlod/../../secret.obj HTTP/1.1" "/hlod/../../secret.obj")) /\
  do_GET demo demo_BASE
         (fresh "GET /hlod/missing.obj HTTP/1.1" "/hlod/missing.obj") =
  Ok (send_error 404
        (fresh "GET /hlod/missing.obj HTTP/1.1" "/hlod/missing.obj")).
Proof.
  split.
  - apply (asset_miss_answers_404 demo demo_BASE
             (fresh "GET /hlod/../../secret.obj HTTP/1.1" "/hlod/../../secret.obj")
             "hlod" "../../secret.obj"
             (GAME demo_BASE / "hlod")%path ".obj" "model/obj");
      [reflexivity | reflexivity | left; reflexivity].
  - apply (asset_miss_answers_404 demo demo_BASE
             (fresh "GET /hlod/missing.obj HTTP/1.1" "/hlod/missing.obj")
             "hlod" "missing.obj"
             (GAME demo_BASE / "hlod")%path ".obj" "model/obj");
      [reflexivity | reflexivity | right].
    exists (mkPath Root ["srv"; "app"; "game_data"; "hlod"; "missing.obj"]).
    split; reflexivity.
Defined.

(** C5 does not hold of the code. The file [hlod/aaa...a], with a name of
    256 letters, does not exist, and the request for it passes
    [safe_resolve]; but [_serve_file] asks [path.exists()], which raises
    [OSError] for a name longer than [NAME_MAX] instead of answering
    [False], and the exception leaves [do_GET]: no 404 is sent. With 255
    letters the answer is the 404. [safe_resolve], beside it, catches
    [OSError]. *)
Lemma C5_missing_file_raises :
  lookup_path (fs demo)
    ["srv"; "app"; "game_data"; "hlod"; str_mul "a" 256] = None /\
  safe_resolve demo (hlod_dir demo_BASE) (str_mul "a" 256) =
    Ok (Some (mkPath Root ["srv"; "app"; "game_data"; "hlod"; str_mul "a" 256])) /\
  do_GET demo demo_BASE
         (fresh ("GET /hlod/" ++ str_mul "a" 256 ++ " HTTP/1.1")
                ("/hlod/" ++ str_mul "a" 256)) =
    Raise (OSError ENAMETOOLONG) /\
  do_GET demo demo_BASE
         (fresh ("GET /hlod/" ++ str_mul "a" 255 ++ " HTTP/1.1")
                ("/hlod/" ++ str_mul "a" 255)) =
    Ok (send_error 404
          (fresh ("GET /hlod/" ++ str_mul "a" 255 ++ " HTTP/1.1")
                 ("/hlod/" ++ str_mul "a" 255))).
Proof. repeat split; vm_compute; reflexivity. Qed.

(** ** Decimal numerals *)

Lemma nat_of_str_of_nat (n : nat) : nat_of_str (str_of_nat n) = Some n.
Proof.
  unfold nat_of_str, str_of_nat.
  pose proof (DecimalNat.Unsigned.of_to n) as E.
  destruct (Nat.to_uint n) as [| d | d | d | d | d | d | d | d | d | d] eqn:D;
    [ simpl in E; subst n; reflexivity
    | rewrite NilZero.usu by discriminate; simpl; now rewrite E .. ].
Qed.

Lemma str_of_nat_inj (n m : nat) : str_of_nat n = str_of_nat m -> n = m.
Proof.
  intros H. apply (f_equal nat_of_str) in H.
  rewrite !nat_of_str_of_nat in H. congruence.
Qed.

Lemma str_of_nat_404 (n : nat) : (str_of_nat n =? "404") = (n =? 404)%nat.
Proof.
  destruct (Nat.eqb_spec n 404) as [->|N]; [reflexivity|].
  apply String.eqb_neq. intros H. apply N.
  now apply str_of_nat_inj.
Qed.

(** ** The replies [do_GET] can leave on the handler *)

Lemma log_message_fields (format : string) (args : list pyval) (h : handler) :
  log_message format args h =
  mkHandler (requestline h) (self_path h) (status h) (headers h) (body h)
            (error_page h) (static h) (log (log_message format args h)).
Proof.
  unfold log_message.
  destruct (existsb (fun arg => py_str arg =? "404") args); now destruct h.
Qed.

Lemma send_response_200 (h : handler) :
  send_response 200 h = reply_200 h [] [].
Proof.
  unfold send_response, reply_200, log_request.
  rewrite log_message_fields at 1. unfold set_status; cbn.
  now rewrite !app_nil_r.
Qed.

Lemma serve_json_reply (data : list string) (h : handler) :
  _serve_json data h =
  reply_200 h (json_fields (encode (json_dumps data)))
            (encode (json_dumps data)).
Proof.
  unfold _serve_json. rewrite send_response_200.
  unfold reply_200, end_headers, send_header, wfile_write, json_fields; cbn.
  now rewrite !app_nil_r, <- !app_assoc.
Qed.

Lemma serve_file_reply (w : world) (path : PurePath) (ctype : string)
  (h h' : handler) :
  _serve_file w path ctype h = Ok h' ->
  (exists_ w path = Ok false /\ h' = send_error 404 h) \/
  (exists data, exists_ w path = Ok true /\ read_bytes w path = Ok data /\
                h' = reply_200 h (file_fields ctype data) data).
Proof.
  unfold _serve_file.
  destruct (exists_ w path) as [[|]|e]; cbn [bind negb]; [| |discriminate].
  - destruct (read_bytes w path) as [data|e]; cbn [bind]; [|discriminate].
    intros [= <-]. right. exists data. repeat split.
    rewrite send_response_200.
    unfold reply_200, end_headers, send_header, wfile_write, file_fields; cbn.
    now rewrite !app_nil_r, <- !app_assoc.
  - intros [= <-]. now left.
Qed.

Lemma serve_file_reply_of (w : world) (path : PurePath) (ctype : string)
  (h h' : handler) :
  _serve_file w path ctype h = Ok h' -> reply_of w h h'.
Proof.
  intros H. apply serve_file_reply in H as [[_ ->] | [data [_ [R ->]]]].
  - constructor.
  - now apply reply_file with (path := path).
Qed.

Lemma respond_reply_of (w : world) (m : route_match) (path : string)
  (h h' : handler) :
  respond w m path h = Ok h' -> reply_of w h h'.
Proof.
  destruct m as [file ctype | directory ext | directory ctype filename | ];
    cbn [respond].
  - apply serve_file_reply_of.
  - destruct (list_files w directory ext) as [names|e]; cbn [bind];
      [|discriminate].
    intros [= <-]. rewrite serve_json_reply. constructor.
  - destruct (safe_resolve w directory filename) as [[resolved|]|e];
      cbn [bind]; [apply serve_file_reply_of | | discriminate].
    intros [= <-]. constructor.
  - unfold static_files. destruct (path =? "/"); intros [= <-]; constructor.
Qed.

Lemma do_GET_reply_of (w : world) (BASE : PurePath) (h h' : handler) :
  do_GET w BASE h = Ok h' -> reply_of w h h'.
Proof.
  unfold do_GET. rewrite do_GET_routes_classified. apply respond_reply_of.
Qed.

(** ** [Content-Length] is the length of the body *)

Lemma reply_200_length (line target : string) (fields : list (string * string))
  (data : list byte) :
  dict_get "Content-Length" fields = Some (str_of_nat (List.length data)) ->
  let h' := reply_200 (fresh line target) fields data in
  dict_get "Content-Length" (headers h') =
    Some (str_of_nat (List.length (body h'))) /\
  content_length h' = Some (List.length (body h')).
Proof.
  intros H h'. unfold content_length. subst h'. cbn [headers body reply_200 fresh app].
  rewrite H. split; [reflexivity | apply nat_of_str_of_nat].
Qed.

(** C8. Every 200 reply of [do_GET] to a parsed request carries a
    [Content-Length] field that is the decimal numeral of the number of
    body bytes written, and reads back as that number; the body is the
    encoded JSON array of a listing, or the bytes read from a file. *)
Theorem C8_content_length_exact :
  forall (w : world) (BASE : PurePath) (line target : string) (h' : handler),
    do_GET w BASE (fresh line target) = Ok h' ->
    status h' = Some 200 ->
    dict_get "Content-Length" (headers h') =
      Some (str_of_nat (List.length (body h'))) /\
    content_length h' = Some (List.length (body h')) /\
    ((exists names, body h' = encode (json_dumps names)) \/
     (exists path, read_bytes w path = Ok (body h'))).
Proof.
  intros w BASE line target h' H Hs.
  apply do_GET_reply_of in H.
  destruct H as [ | names | path ctype data R | | ].
  - rewrite send_error_404 in Hs. discriminate.
  - destruct (reply_200_length line target
                (json_fields (encode (json_dumps names)))
                (encode (json_dumps names)) eq_refl) as [A B].
    repeat split; auto. left. now exists names.
  - destruct (reply_200_length line target (file_fields ctype data) data eq_refl)
      as [A B].
    repeat split; auto. right. now exists path.
  - discriminate.
  - discriminate.
Qed.

Lemma C8_content_length_witness :
  exists h',
    do_GET demo demo_BASE (fresh "GET /list_hlod HTTP/1.1" "/list_hlod") = Ok h' /\
    status h' = Some 200 /\
    content_length h' = Some (List.length (body h')) /\
    content_length h' = Some 18.
Proof.
  eexists. split; [vm_compute; reflexivity|].
  split; [reflexivity|].
  split; [|reflexivity].
  apply (C8_content_length_exact demo demo_BASE
           "GET /list_hlod HTTP/1.1" "/list_hlod"); reflexivity.
Defined.

(** ** Only the log lines of a 404 are dropped *)

Lemma log_request_filter (h : handler) (code : nat) :
  requestline h <> "404" ->
  log (log_request code "-" h) =
  if (code =? 404)%nat then log h
  else log h ++ [request_line_logged (requestline h) code].
Proof.
  intros N. unfold log_request, log_message. cbn [existsb py_str].
  apply String.eqb_neq in N. rewrite N, str_of_nat_404. cbn [orb].
  destruct (code =? 404)%nat; reflexivity.
Qed.

Lemma send_response_log (h : handler) (code : nat) :
  log (send_response code h) = log (log_request code "-" h).
Proof. reflexivity. Qed.

Lemma phrase_not_404 (code : nat) : (phrase code =? "404") = false.
Proof.
  unfold phrase, responses. cbn [responses_get].
  repeat (match goal with
          | |- context [if (?c =? code)%nat then _ else _] =>
              destruct (c =? code)%nat; [reflexivity|]
          end).
  reflexivity.
Qed.

Lemma log_error_line (code : nat) (message : string) (h : handler) :
  (message =? "404") = false ->
  log (log_error "code %d, message %s" [PyInt code; PyStr message] h) =
  if (code =? 404)%nat then log h
  else log h ++ [error_line_logged code message].
Proof.
  intros M. unfold log_error, log_message. cbn [existsb py_str].
  rewrite str_of_nat_404, M. cbn [orb].
  destruct (code =? 404)%nat; reflexivity.
Qed.

Lemma log_error_requestline (format : string) (args : list pyval) (h : handler) :
  requestline (log_error format args h) = requestline h.
Proof.
  unfold log_error, log_message.
  now destruct (existsb _ args).
Qed.

(** What [send_error] leaves in the log. *)
Lemma send_error_msg_log (code : nat) (message explain : option string)
  (h : handler) :
  requestline h <> "404" ->
  (match message with Some m => m | None => phrase code end =? "404") = false ->
  status (send_error_msg code message explain h) = Some code /\
  requestline (send_error_msg code message explain h) = requestline h /\
  static (send_error_msg code message explain h) = static h /\
  log (send_error_msg code message explain h) =
  if (code =? 404)%nat then log h
  else log h ++ [error_line_logged code
                   match message with Some m => m | None => phrase code end;
                 request_line_logged (requestline h) code].
Proof.
  intros N M. unfold send_error_msg.
  set (m := match message with Some m => m | None => phrase code end) in *.
  set (h1 := log_error "code %d, message %s" [PyInt code; PyStr m] h).
  assert (R1 : requestline h1 = requestline h) by apply log_error_requestline.
  assert (L1 : log h1 = if (code =? 404)%nat then log h
                        else log h ++ [error_line_logged code m])
    by (now apply log_error_line).
  assert (S1 : static h1 = static h).
  { unfold h1, log_error, log_message. now destruct (existsb _ _). }
  assert (L2 : log (send_response code h1) =
               if (code =? 404)%nat then log h
               else log h ++ [error_line_logged code m;
                              request_line_logged (requestline h) code]).
  { rewrite send_response_log, log_request_filter by congruence.
    rewrite L1, R1. destruct (code =? 404)%nat; [reflexivity|].
    now rewrite <- app_assoc. }
  assert (R2 : requestline (send_response code h1) = requestline h).
  { unfold send_response, log_request, log_message. cbn [set_status requestline].
    destruct (existsb _ _); exact R1. }
  assert (S2 : static (send_response code h1) = static h).
  { unfold send_response, log_request, log_message. cbn [set_status static].
    destruct (existsb _ _); exact S1. }
  destruct (Nat.leb 200 code && _); cbn; auto.
Qed.

Lemma logged_send_error (code : nat) (message explain : option string)
  (h : handler) :
  requestline h <> "404" ->
  log h = [] ->
  (match message with Some m => m | None => phrase code end =? "404") = false ->
  logged_by_status (requestline h) (send_error_msg code message explain h).
Proof.
  intros N L M.
  destruct (send_error_msg_log code message explain h N M) as [S [R [_ E]]].
  split; [exact R|]. intros c Hc. rewrite S in Hc. injection Hc as <-.
  rewrite E, L. destruct (Nat.eqb_spec code 404) as [->|Ne].
  - split; [tauto | congruence].
  - split; [split; [discriminate | congruence]|].
    intros _. right. eexists. reflexivity.
Qed.

Lemma logged_send_response (code : nat) (h h' : handler) :
  requestline h <> "404" ->
  log h = [] ->
  requestline h' = requestline h ->
  status h' = Some code ->
  log h' = log (send_response code h) ->
  logged_by_status (requestline h) h'.
Proof.
  intros N L R S E. split; [exact R|].
  intros c Hc. rewrite S in Hc. injection Hc as <-.
  rewrite E, send_response_log, log_request_filter, L by exact N.
  destruct (Nat.eqb_spec code 404) as [->|Ne].
  - split; [tauto | congruence].
  - split; [split; [discriminate | congruence]|].
    intros _. now left.
Qed.

Lemma send_response_requestline (code : nat) (h : handler) :
  requestline (send_response code h) = requestline h.
Proof.
  unfold send_response, log_request, log_message. cbn [set_status requestline].
  now destruct (existsb _ _).
Qed.

Lemma logged_send_head (found : static_outcome) (h : handler)
  (sent : handler * option (list byte)) :
  requestline h <> "404" ->
  log h = [] ->
  send_head found h = Ok sent ->
  logged_by_status (requestline h) (fst sent) /\
  forall data, logged_by_status (requestline h) (wfile_write data (fst sent)).
Proof.
  intros N L.
  assert (W : forall h0 data,
             logged_by_status (requestline h) h0 ->
             logged_by_status (requestline h) (wfile_write data h0))
    by (intros h0 data K; exact K).
  destruct found as [url | enc page | | | | ctype size modified content | e];
    cbn [send_head]; try discriminate; intros [= <-]; cbn [fst];
    (split; [|intros data; apply W]);
    try (apply logged_send_error; [exact N | exact L | reflexivity]);
    (eapply logged_send_response;
     [exact N | exact L | apply send_response_requestline
     | reflexivity | reflexivity]).
Qed.

Lemma logged_static_do_GET (found : static_outcome) (h h' : handler) :
  requestline h <> "404" ->
  log h = [] ->
  static_do_GET found h = Ok h' ->
  logged_by_status (requestline h) h'.
Proof.
  intros N L. unfold static_do_GET.
  destruct (send_head found h) as [sent|e] eqn:E; cbn [bind]; [|discriminate].
  destruct (logged_send_head found h sent N L E) as [A B].
  destruct (snd sent); intros [= <-]; auto.
Qed.

Lemma logged_static_do_HEAD (found : static_outcome) (h h' : handler) :
  requestline h <> "404" ->
  log h = [] ->
  static_do_HEAD found h = Ok h' ->
  logged_by_status (requestline h) h'.
Proof.
  intros N L. unfold static_do_HEAD.
  destruct (send_head found h) as [sent|e] eqn:E; cbn [bind]; [|discriminate].
  destruct (logged_send_head found h sent N L E) as [A B].
  now intros [= <-].
Qed.

Lemma logged_parse_request (req : request) (h' : handler) :
  rstrip_crlf (raw_requestline req) <> "404" ->
  parse_request req = inl h' ->
  logged_by_status (rstrip_crlf (raw_requestline req)) h'.
Proof.
  intros N. unfold parse_request.
  set (line := rstrip_crlf (raw_requestline req)) in *.
  assert (F : forall p code message explain,
             (message =? "404") = false ->
             logged_by_status line
               (send_error_msg code (Some message) explain
                  (set_path p (fresh line "")))).
  { intros p code message explain M.
    apply (logged_send_error code (Some message) explain
             (set_path p (fresh line ""))); auto. }
  assert (F0 : forall code message explain,
             (message =? "404") = false ->
             logged_by_status line
               (send_error_msg code (Some message) explain (fresh line ""))).
  { intros code message explain M.
    apply (logged_send_error code (Some message) explain (fresh line ""));
      auto. }
  destruct (split_words line "") as [|w0 ws] eqn:W.
  - intros [= <-]. split; [reflexivity|]. discriminate.
  - destruct (if Nat.leb 3 (List.length (w0 :: ws))
              then check_version (last (w0 :: ws) "") else None)
      as [[code message]|] eqn:V.
    + intros [= <-]. apply F0.
      destruct (Nat.leb 3 (List.length (w0 :: ws))); [|discriminate].
      unfold check_version in V.
      destruct (negb (startswith (last (w0 :: ws) "") "HTTP/"));
        [injection V as <- <-; reflexivity|].
      destruct (split "." _) as [|a [|b [|c l]]];
        try (injection V as <- <-; reflexivity).
      destruct (py_int a), (py_int b);
        try (injection V as <- <-; reflexivity).
      destruct (_ || _)%bool; [injection V as <- <-; reflexivity|discriminate].
    + destruct (negb _); [intros [= <-]; apply F0; reflexivity|].
      destruct (_ && negb _)%bool; [intros [= <-]; apply F0; reflexivity|].
      destruct (read_headers (header_lines req) 0);
        [discriminate | |]; intros [= <-]; apply F; reflexivity.
Qed.

Lemma parse_request_dispatch (req : request) (command : string) (h : handler) :
  parse_request req = inr (command, h) ->
  requestline h = rstrip_crlf (raw_requestline req) /\
  log h = [] /\ static h = false /\ status h = None.
Proof.
  unfold parse_request.
  destruct (split_words _ "") as [|w0 ws]; [discriminate|].
  destruct (if Nat.leb 3 (List.length (w0 :: ws)) then _ else None)
    as [[code message]|]; [discriminate|].
  destruct (negb _); [discriminate|].
  destruct (_ && negb _)%bool; [discriminate|].
  destruct (read_headers (header_lines req) 0); try discriminate.
  intros [= _ <-]. repeat split.
Qed.

Lemma logged_do_GET (w : world) (BASE : PurePath) (h h1 : handler) :
  requestline h <> "404" ->
  log h = [] ->
  static h = false ->
  do_GET w BASE h = Ok h1 ->
  (static h1 = false /\ logged_by_status (requestline h) h1) \/
  (static h1 = true /\ requestline h1 = requestline h /\ log h1 = []).
Proof.
  intros N L S H. apply do_GET_reply_of in H.
  destruct H as [ | names | path ctype data R | | ].
  - left. split.
    + destruct (send_error_msg_log 404 None None h N eq_refl) as [_ [_ [E _]]].
      unfold send_error. congruence.
    + apply logged_send_error; auto.
  - left. split; [exact S|].
    eapply logged_send_response; [exact N | exact L | | | ]; reflexivity.
  - left. split; [exact S|].
    eapply logged_send_response; [exact N | exact L | | | ]; reflexivity.
  - right. repeat split. exact L.
  - right. repeat split. exact L.
Qed.

(** C9, as stated, fails for the request line that is the bare text
    [404]: [parse_request] answers it 400, the error line is logged, and
    the request line of the 400 is dropped, because [log_message] compares
    every argument of the log call with [404] and the request line is one
    of them. The request line [405] is answered 400 as well and leaves both
    lines. *)
Lemma C9_counterexample :
  handle_one_request demo demo_BASE (mkRequest ("404" ++ CRLF) []) FileNotFound =
    Ok (send_error_msg 400 (Some "Bad request syntax ('404')") None
          (fresh "404" "")) /\
  status (send_error_msg 400 (Some "Bad request syntax ('404')") None
            (fresh "404" "")) = Some 400 /\
  log (send_error_msg 400 (Some "Bad request syntax ('404')") None
         (fresh "404" "")) =
    [error_line_logged 400 "Bad request syntax ('404')"] /\
  handle_one_request demo demo_BASE (mkRequest ("405" ++ CRLF) []) FileNotFound =
    Ok (send_error_msg 400 (Some "Bad request syntax ('405')") None
          (fresh "405" "")) /\
  log (send_error_msg 400 (Some "Bad request syntax ('405')") None
         (fresh "405" "")) =
    [error_line_logged 400 "Bad request syntax ('405')";
     request_line_logged "405" 400].
Proof. repeat split; reflexivity. Qed.

(** C9, amended. For every request that [handle_one_request] answers and
    whose request line is not the bare text [404]: the reply leaves no log
    line exactly when its status is 404; any other status leaves the
    request line with that status and the size [-], after the error line
    when the reply is an error of the library. This holds for the replies
    of [parse_request], of [do_GET] itself, of the static fallback however
    it ends, of [do_HEAD], and for the 501 of any other method. *)
Theorem C9_log_suppressed_iff_404 :
  forall (w : world) (BASE : PurePath) (req : request)
         (found : static_outcome) (h' : handler) (code : nat),
    rstrip_crlf (raw_requestline req) <> "404" ->
    handle_one_request w BASE req found = Ok h' ->
    status h' = Some code ->
    (log h' = [] <-> code = 404) /\
    (code <> 404 ->
     log h' = [request_line_logged (requestline h') code] \/
     exists message,
       log h' = [error_line_logged code message;
                 request_line_logged (requestline h') code]).
Proof.
  intros w BASE req found h' code N H Hs.
  assert (K : exists line, line <> "404" /\ logged_by_status line h').
  { unfold handle_one_request in H.
    destruct (65536 <? N.of_nat (String.length (raw_requestline req)))%N.
    { injection H as <-. exists "". split; [discriminate|].
      apply (logged_send_error 414 None None (fresh "" ""));
        [discriminate | reflexivity | reflexivity]. }
    destruct (raw_requestline req =? ""); [injection H as <-; discriminate|].
    exists (rstrip_crlf (raw_requestline req)). split; [exact N|].
    destruct (parse_request req) as [h0|[command h]] eqn:P.
    { injection H as <-. now apply logged_parse_request. }
    destruct (parse_request_dispatch req command h P) as [R [L [S _]]].
    rewrite <- R in N |- *.
    destruct (command =? "GET").
    { destruct (do_GET w BASE h) as [h1|e] eqn:G; cbn [bind] in H;
        [|discriminate].
      destruct (logged_do_GET w BASE h h1 N L S G) as [[S1 K]|[S1 [R1 L1]]];
        rewrite S1 in H.
      - now injection H as <-.
      - rewrite <- R1 in N |- *. now apply (logged_static_do_GET found h1). }
    destruct (command =? "HEAD").
    { now apply (logged_static_do_HEAD found h). }
    injection H as <-. apply logged_send_error; [exact N | exact L | reflexivity]. }
  destruct K as [line [_ [R K]]]. rewrite R. now apply K.
Qed.

Lemma C9_log_suppressed_witness :
  rstrip_crlf ("GET /hlod/a.obj HTTP/1.1" ++ CRLF) <> "404" /\
  match handle_one_request demo demo_BASE
          (mkRequest ("GET /hlod/a.obj HTTP/1.1" ++ CRLF) []) FileNotFound with
  | Ok h' =>
      status h' = Some 200 /\
      (log h' = [] <-> 200 = 404) /\
      (200 <> 404 ->
       log h' = [request_line_logged (requestline h') 200] \/
       exists message,
         log h' = [error_line_logged 200 message;
                   request_line_logged (requestline h') 200])
  | Raise _ => False
  end.
Proof.
  assert (N : rstrip_crlf ("GET /hlod/a.obj HTTP/1.1" ++ CRLF) <> "404")
    by discriminate.
  split; [exact N|].
  destruct (handle_one_request demo demo_BASE
              (mkRequest ("GET /hlod/a.obj HTTP/1.1" ++ CRLF) []) FileNotFound)
    as [h'|e] eqn:H; [|vm_compute in H; discriminate].
  assert (S : status h' = Some 200)
    by (vm_compute in H; injection H as <-; reflexivity).
  split; [exact S|].
  exact (C9_log_suppressed_iff_404 demo demo_BASE
           (mkRequest ("GET /hlod/a.obj HTTP/1.1" ++ CRLF) []) FileNotFound
           h' 200 N H S).
Defined.

(** ** [list_files] *)

Lemma string_leb_trans (x y z : string) :
  String.leb x y = true -> String.leb y z = true -> String.leb x z = true.
Proof.
  unfold String.leb. revert y z.
  induction x as [|a x IH]; intros [|b y] [|c z]; simpl; try congruence.
  unfold Ascii.compare.
  destruct (N.compare_spec (N_of_ascii a) (N_of_ascii b)) as [E1|L1|G1];
    destruct (N.compare_spec (N_of_ascii b) (N_of_ascii c)) as [E2|L2|G2];
    try congruence.
  - rewrite E1, E2, N.compare_refl. apply IH.
  - rewrite E1. intros _ _.
    now rewrite (proj2 (N.compare_lt_iff _ _) L2).
  - rewrite <- E2. intros _ _.
    now rewrite (proj2 (N.compare_lt_iff _ _) L1).
  - intros _ _.
    now rewrite (proj2 (N.compare_lt_iff _ _) (N.lt_trans _ _ _ L1 L2)).
Qed.

Lemma sorted_ascending (xs : list string) :
  StronglySorted (fun x y => String.leb x y = true) (sorted xs).
Proof.
  apply (StringSort.StronglySorted_sort xs).
  intros x y z. apply string_leb_trans.
Qed.

Lemma sorted_permutation (xs : list string) : Permutation (sorted xs) xs.
Proof. apply Permutation_sym, StringSort.Permuted_sort. Qed.


Lemma string_length_app (p s : string) :
  String.length (p ++ s) = String.length p + String.length s.
Proof. induction p as [|c p IH]; simpl; [reflexivity | now rewrite IH]. Qed.


Lemma list_files_of_dir (w : world) (directory : PurePath) (ext : string)
  (entries : list (string * node)) :
  stat w directory = inr (Dir entries) ->
  list_files w directory ext =
  Ok (sorted (filter (fun f => endswith f ext) (map fst entries))).
Proof.
  intros H. unfold list_files, exists_, listdir. now rewrite H.
Qed.



(** ** [realpath] along components that are no links *)

Lemma joinrealpath_nil (d : nat) (stop : bool) (t : node) (path : list string)
  (seen : seen_map) :
  joinrealpath (S d) stop t path [] seen = RpDone path true seen.
Proof. reflexivity. Qed.

Lemma joinrealpath_cons (d : nat) (stop : bool) (t : node) (path : list string)
  (name : string) (rest : list string) (seen : seen_map) :
  joinrealpath (S d) stop t path (name :: rest) seen =
  if (name =? "") || (name =? ".") then joinrealpath (S d) stop t path rest seen
  else if name =? ".." then joinrealpath (S d) stop t (removelast path) rest seen
  else if has_nul name then RpRaise ValueError
  else
    match lookup_path t (path ++ [name]) with
    | Some (Symlink target) =>
        match seen_get (path ++ [name]) seen with
        | Some (Some cached) => joinrealpath (S d) stop t cached rest seen
        | Some None =>
            if stop then RpDone ((path ++ [name]) ++ rest) false seen
            else joinrealpath (S d) stop t (path ++ [name]) rest seen
        | None =>
            match joinrealpath d stop t (target_start target path)
                    (target_parts target)
                    ((path ++ [name], None) :: seen) with
            | RpDone p true seen' =>
                joinrealpath (S d) stop t p rest ((path ++ [name], Some p) :: seen')
            | RpDone p false seen' => RpDone (p ++ rest) false seen'
            | other => other
            end
        end
    | _ => joinrealpath (S d) stop t (path ++ [name]) rest seen
    end.
Proof. reflexivity. Qed.

Lemma joinrealpath_plain_step (d : nat) (stop : bool) (t : node) (path : list string)
  (name : string) (rest : list string) (seen : seen_map) :
  plain name = true ->
  is_link t (path ++ [name]) = false ->
  joinrealpath (S d) stop t path (name :: rest) seen =
  joinrealpath (S d) stop t (path ++ [name]) rest seen.
Proof.
  unfold plain, keep_part, is_link. intros P L.
  rewrite joinrealpath_cons.
  destruct (name =? ""), (name =? "."), (name =? ".."), (has_nul name);
    try discriminate. cbn [orb].
  destruct (lookup_path t (path ++ [name])) as [[| |target]|];
    [reflexivity | reflexivity | discriminate | reflexivity].
Qed.

Lemma joinrealpath_plain (d : nat) (stop : bool) (t : node) (ps : list string) :
  forall (path rest : list string) (seen : seen_map),
    forallb plain ps = true ->
    no_link_along t path ps = true ->
    joinrealpath (S d) stop t path (ps ++ rest) seen =
    joinrealpath (S d) stop t (path ++ ps) rest seen.
Proof.
  induction ps as [|x ps IH]; intros path rest seen P L.
  - now rewrite app_nil_r.
  - cbn [forallb no_link_along] in P, L.
    apply andb_prop in P as [Px P]. apply andb_prop in L as [Lx L].
    apply negb_true_iff in Lx.
    rewrite <- app_comm_cons, joinrealpath_plain_step by assumption.
    rewrite IH by assumption. now rewrite <- app_assoc.
Qed.

Lemma joinrealpath_dotdot (d : nat) (stop : bool) (t : node) (path : list string)
  (x : string) (rest : list string) (seen : seen_map) :
  joinrealpath (S d) stop t (path ++ [x]) (".." :: rest) seen =
  joinrealpath (S d) stop t path rest seen.
Proof. rewrite joinrealpath_cons. cbn. now rewrite removelast_last. Qed.

(** The walk over [xs ++ ys] is the walk over [xs] continued over [ys]. *)
Lemma joinrealpath_app (d : nat) (stop : bool) (t : node) (xs ys : list string) :
  forall (path : list string) (seen : seen_map),
    joinrealpath (S d) stop t path (xs ++ ys) seen =
    match joinrealpath (S d) stop t path xs seen with
    | RpDone p true seen' => joinrealpath (S d) stop t p ys seen'
    | RpDone p false seen' => RpDone (p ++ ys) false seen'
    | other => other
    end.
Proof.
  induction xs as [|x xs IH]; intros path seen.
  - reflexivity.
  - rewrite <- app_comm_cons, !joinrealpath_cons.
    destruct ((x =? "") || (x =? ".")); [apply IH|].
    destruct (x =? ".."); [apply IH|].
    destruct (has_nul x); [reflexivity|].
    destruct (lookup_path t (path ++ [x])) as [[| |target]|]; try apply IH.
    destruct (seen_get (path ++ [x]) seen) as [[cached|]|].
    + apply IH.
    + destruct stop; [|apply IH].
      now rewrite (app_assoc (path ++ [x]) xs ys).
    + destruct (joinrealpath d stop t (target_start target path)
                  (target_parts target) ((path ++ [x], None) :: seen))
        as [p [|] seen'| |]; [apply IH | | reflexivity | reflexivity].
      now rewrite (app_assoc p xs ys).
Qed.

(** ** Path segments *)

Lemma is_prefix_iff (xs ys : list string) :
  is_prefix xs ys = true <-> exists zs, ys = xs ++ zs.
Proof.
  revert ys. induction xs as [|x xs IH]; intros ys; simpl.
  - split; [now exists ys | reflexivity].
  - destruct ys as [|y ys].
    + split; [discriminate | intros [zs E]; discriminate].
    + rewrite andb_true_iff, String.eqb_eq, IH. split.
      * intros [-> [zs ->]]. now exists zs.
      * intros [zs E]. injection E as -> ->. split; [reflexivity | now exists zs].
Qed.

Lemma is_prefix_app (xs zs : list string) : is_prefix xs (xs ++ zs) = true.
Proof. apply is_prefix_iff. now exists zs. Qed.

Lemma is_prefix_app_same (bs xs ys : list string) :
  is_prefix (bs ++ xs) (bs ++ ys) = is_prefix xs ys.
Proof.
  induction bs as [|b bs IH]; [reflexivity|].
  simpl. now rewrite String.eqb_refl, IH.
Qed.

Lemma split_has_nul (c : ascii) (s : string) :
  has_nul s = false -> forallb (fun x => negb (has_nul x)) (split c s) = true.
Proof.
  induction s as [|a s IH]; [reflexivity|].
  cbn [has_nul split]. intros H. apply orb_false_elim in H as [Ha Hs].
  specialize (IH Hs).
  destruct (Ascii.eqb a c); [exact IH|].
  destruct (split c s) as [|x xs]; cbn [forallb has_nul] in *.
  - now rewrite Ha.
  - now rewrite Ha.
Qed.

(** The parts of a candidate without [..] segment and without null
    character are plain. *)
Lemma candidate_parts_plain (candidate : string) :
  forallb (fun x => negb (x =? "..")) (split "/" candidate) = true ->
  has_nul candidate = false ->
  forallb plain (parts (parse_path candidate)) = true.
Proof.
  intros D N. apply (split_has_nul "/") in N.
  cbn [parts parse_path]. rewrite forallb_forall in *.
  intros x Hx. apply filter_In in Hx as [Hx K].
  unfold plain. now rewrite K, (D x Hx), (N x Hx).
Qed.

Lemma normparts_plain (cs : list string) :
  forall acc, forallb plain cs = true -> normparts acc cs = acc ++ cs.
Proof.
  induction cs as [|c cs IH]; intros acc P.
  - now rewrite app_nil_r.
  - cbn [forallb] in P. apply andb_prop in P as [Pc P].
    unfold plain, keep_part in Pc. cbn [normparts].
    destruct (c =? ""), (c =? "."), (c =? ".."); try discriminate.
    cbn [orb]. rewrite IH by assumption. now rewrite <- app_assoc.
Qed.

Lemma normparts_app_plain (q cs : list string) :
  forall acc,
    forallb plain cs = true ->
    normparts acc (q ++ cs) = normparts acc q ++ cs.
Proof.
  induction q as [|x q IH]; intros acc P.
  - now apply normparts_plain.
  - cbn [app normparts].
    destruct ((x =? "") || (x =? ".")); [now apply IH|].
    destruct (x =? ".."); now apply IH.
Qed.

Lemma normparts_names (ps : list string) :
  forall acc,
    forallb (fun x => keep_part x && negb (x =? "..")) acc = true ->
    forallb (fun x => keep_part x && negb (x =? "..")) (normparts acc ps) = true.
Proof.
  induction ps as [|x ps IH]; intros acc A; cbn [normparts]; [exact A|].
  destruct ((x =? "") || (x =? ".")) eqn:E1; [now apply IH|].
  destruct (x =? "..") eqn:E2.
  - apply IH. rewrite forallb_forall in *. intros y Hy. apply A.
    destruct acc as [|a acc]; [contradiction|].
    pose proof (@app_removelast_last _ (a :: acc) a ltac:(discriminate)) as E.
    rewrite E. apply in_or_app. now left.
  - apply IH. rewrite forallb_app, A. cbn [forallb].
    unfold keep_part. apply orb_false_elim in E1 as [-> ->]. now rewrite E2.
Qed.

(** ** What the kernel finds at a path without links *)

Lemma namei_nil (hops : nat) (t : node) (cur : list string) :
  namei hops t cur [] = inr cur.
Proof. now destruct hops. Qed.

Lemma namei_cons (hops : nat) (t : node) (cur : list string) (name : string)
  (rest : list string) :
  namei hops t cur (name :: rest) =
  match lookup_path t cur with
  | Some (Dir _) =>
      if (name =? "") || (name =? ".") then namei hops t cur rest
      else if name =? ".." then namei hops t (removelast cur) rest
      else if name_too_long name then inl ENAMETOOLONG
      else
        match lookup_path t (cur ++ [name]) with
        | None => inl ENOENT
        | Some (Symlink target) =>
            match hops with
            | O => inl ELOOP
            | S hops' =>
                namei hops' t (target_start target cur)
                      (target_parts target ++ rest)
            end
        | Some _ => namei hops t (cur ++ [name]) rest
        end
  | Some _ => inl ENOTDIR
  | None => inl ENOENT
  end.
Proof. now destruct hops. Qed.

(** Along plain components that are no links, the kernel's walk follows
    the tree: it ends at the path itself, or stops at a missing entry, at
    an entry that is no directory, or at a name that is too long. *)
Lemma namei_link_free (hops : nat) (t : node) (ps : list string) :
  forall cur : list string,
    forallb plain ps = true ->
    no_link_along t cur ps = true ->
    namei hops t cur ps = inr (cur ++ ps) \/
    namei hops t cur ps = inl ENOENT \/
    namei hops t cur ps = inl ENOTDIR \/
    namei hops t cur ps = inl ENAMETOOLONG.
Proof.
  induction ps as [|x ps IH]; intros cur P L.
  - left. now rewrite namei_nil, app_nil_r.
  - cbn [forallb no_link_along] in P, L.
    apply andb_prop in P as [Px P]. apply andb_prop in L as [Lx L].
    apply negb_true_iff in Lx. unfold plain, keep_part in Px.
    unfold is_link in Lx. rewrite namei_cons.
    destruct (lookup_path t cur) as [[| entries |]|]; auto.
    destruct (x =? ""), (x =? "."), (x =? ".."); try discriminate.
    cbn [orb].
    destruct (name_too_long x); auto.
    destruct (lookup_path t (cur ++ [x])) as [[| |target]|];
      try discriminate; auto;
      (destruct (IH (cur ++ [x]) P L) as [E|E];
       [left; now rewrite E, <- app_assoc | now right]).
Qed.

Lemma stat_link_free (w : world) (q : PurePath) :
  root q = Root ->
  forallb plain (parts q) = true ->
  link_free (fs w) (parts q) = true ->
  stat w q <> inl ELOOP /\
  forall n, stat w q = inr n -> lookup_path (fs w) (parts q) = Some n.
Proof.
  intros R P L. unfold stat, start_dir. rewrite R.
  destruct (path_too_long q); [split; congruence|].
  destruct (namei_link_free MAXSYMLINKS (fs w) (parts q) [] P L)
    as [E|[E|[E|E]]]; rewrite E; cbn [app].
  - destruct (lookup_path (fs w) (parts q)) as [n|];
      split; congruence.
  - split; congruence.
  - split; congruence.
  - split; congruence.
Qed.

(** The bytes read at a path without links are those of the regular file at
    that place of the tree. *)
Lemma read_bytes_link_free (w : world) (q : PurePath) (data : list byte) :
  root q = Root ->
  forallb plain (parts q) = true ->
  link_free (fs w) (parts q) = true ->
  read_bytes w q = Ok data ->
  lookup_path (fs w) (parts q) = Some (File true data).
Proof.
  intros R P L. destruct (stat_link_free w q R P L) as [_ K].
  unfold read_bytes.
  destruct (stat w q) as [e|[[|] content| entries | target]];
    try discriminate.
  intros [= <-]. now apply K.
Qed.

(** ** What [realpath] returns *)

Lemma no_link_along_app (t : node) (xs ys : list string) :
  forall path,
    no_link_along t path (xs ++ ys) =
    no_link_along t path xs && no_link_along t (path ++ xs) ys.
Proof.
  induction xs as [|x xs IH]; intros path; cbn [app no_link_along].
  - now rewrite app_nil_r.
  - rewrite IH, <- app_assoc. cbn [app]. now rewrite andb_assoc.
Qed.

Lemma link_free_snoc (t : node) (p : list string) (x : string) :
  link_free t (p ++ [x]) = link_free t p && negb (is_link t (p ++ [x])).
Proof.
  unfold link_free. rewrite no_link_along_app. cbn [app no_link_along].
  now rewrite andb_true_r.
Qed.

Lemma removelast_cases {A : Type} (l : list A) :
  l = [] \/ exists x, l = removelast l ++ [x].
Proof.
  destruct l as [|a l]; [now left | right].
  exists (last (a :: l) a). apply app_removelast_last. discriminate.
Qed.

Lemma link_free_removelast (t : node) (p : list string) :
  link_free t p = true -> link_free t (removelast p) = true.
Proof.
  destruct (removelast_cases p) as [-> | [x E]]; [auto|].
  rewrite E at 1. rewrite link_free_snoc. intros H.
  now apply andb_prop in H as [H _].
Qed.

Lemma plain_removelast (p : list string) :
  forallb plain p = true -> forallb plain (removelast p) = true.
Proof.
  destruct (removelast_cases p) as [-> | [x E]]; [auto|].
  rewrite E at 1. rewrite forallb_app. intros H.
  now apply andb_prop in H as [H _].
Qed.

Section RealpathOutput.

Variable stop : bool.
Variable t : node.

(** A resolved part: plain components and, when the walk stops at loops,
    no link among them. *)
Definition resolved_part (p : list string) : Prop :=
  forallb plain p = true /\ (stop = true -> link_free t p = true).

Definition resolved_cache (seen : seen_map) : Prop :=
  forall k v, seen_get k seen = Some (Some v) -> resolved_part v.

Lemma resolved_part_nil : resolved_part [].
Proof. split; reflexivity. Qed.

Lemma resolved_cache_nil : resolved_cache [].
Proof. intros k v H. discriminate. Qed.

Lemma resolved_part_removelast (p : list string) :
  resolved_part p -> resolved_part (removelast p).
Proof.
  intros [P L]. split; [now apply plain_removelast|].
  intros S. now apply link_free_removelast, L.
Qed.

Lemma resolved_part_snoc (p : list string) (x : string) :
  resolved_part p ->
  plain x = true ->
  (stop = true -> is_link t (p ++ [x]) = false) ->
  resolved_part (p ++ [x]).
Proof.
  intros [P L] Px Lx. split.
  - rewrite forallb_app, P. cbn [forallb]. now rewrite Px.
  - intros S. rewrite link_free_snoc, (L S), (Lx S). reflexivity.
Qed.

Lemma resolved_cache_cons (seen : seen_map) (k : list string)
  (v : option (list string)) :
  resolved_cache seen ->
  (forall p, v = Some p -> resolved_part p) ->
  resolved_cache ((k, v) :: seen).
Proof.
  intros C V k' v'. cbn [seen_get].
  destruct (path_eq_dec k k'); [intros [= ->]; now apply V | apply C].
Qed.

(** A walk that ends with [ok = true] returns a resolved part; a walk ends
    with [ok = false] only when it stops at loops. *)
Lemma joinrealpath_output (d : nat) :
  forall (rest path : list string) (seen : seen_map),
    resolved_part path ->
    resolved_cache seen ->
    match joinrealpath d stop t path rest seen with
    | RpDone p true seen' => resolved_part p /\ resolved_cache seen'
    | RpDone _ false _ => stop = true
    | _ => True
    end.
Proof.
  induction d as [|d IHd]; [intros; exact I|].
  induction rest as [|name rest IHr]; intros path seen G C.
  - rewrite joinrealpath_nil. now split.
  - rewrite joinrealpath_cons.
    destruct ((name =? "") || (name =? ".")) eqn:E1; [now apply IHr|].
    destruct (name =? "..") eqn:E2;
      [apply IHr; [now apply resolved_part_removelast | exact C]|].
    destruct (has_nul name) eqn:E3; [exact I|].
    assert (Pn : plain name = true).
    { unfold plain, keep_part. apply orb_false_elim in E1 as [-> ->].
      now rewrite E2, E3. }
    destruct (lookup_path t (path ++ [name])) as [[| |target]|] eqn:L;
      try (apply IHr; [|exact C]; apply resolved_part_snoc; auto;
           intros _; unfold is_link; now rewrite L).
    destruct (seen_get (path ++ [name]) seen) as [[cached|]|] eqn:Sg.
    + apply IHr; [now apply (C _ _ Sg) | exact C].
    + destruct stop eqn:St; [reflexivity|].
      apply IHr; [|exact C]. apply resolved_part_snoc; auto. congruence.
    + assert (G0 : resolved_part (target_start target path))
        by (unfold target_start; destruct (startswith target "/");
            [apply resolved_part_nil | exact G]).
      assert (C0 : resolved_cache ((path ++ [name], None) :: seen))
        by (apply resolved_cache_cons; [exact C | discriminate]).
      specialize (IHd (target_parts target) _ _ G0 C0).
      destruct (joinrealpath d stop t (target_start target path)
                  (target_parts target) ((path ++ [name], None) :: seen))
        as [p [|] seen'| |]; [| exact IHd | exact I | exact I].
      destruct IHd as [Gp Cp].
      apply IHr; [exact Gp|].
      apply resolved_cache_cons; [exact Cp|].
      intros p0 E. injection E as <-. exact Gp.
Qed.

End RealpathOutput.

(** ** [Path.resolve] *)

Lemma plain_no_nul (ps : list string) :
  forallb plain ps = true -> existsb has_nul ps = false.
Proof.
  induction ps as [|x ps IH]; [reflexivity|].
  cbn [forallb existsb]. intros H. apply andb_prop in H as [Hx H].
  unfold plain in Hx. apply andb_prop in Hx as [_ Hx].
  apply negb_true_iff in Hx. rewrite IH by assumption. now rewrite Hx.
Qed.

Lemma names_no_nul_plain (ps : list string) :
  forallb (fun x => keep_part x && negb (x =? "..")) ps = true ->
  existsb has_nul ps = false ->
  forallb plain ps = true.
Proof.
  induction ps as [|x ps IH]; [reflexivity|].
  cbn [forallb existsb]. intros H N.
  apply andb_prop in H as [Hx H]. apply orb_false_elim in N as [Nx N].
  rewrite IH by assumption. unfold plain. now rewrite Hx, Nx.
Qed.

Lemma resolve_realpath (w : world) (p r : PurePath) :
  resolve w p = Ok r -> realpath w p = Ok r.
Proof.
  unfold resolve. destruct (realpath w p) as [q|e]; cbn [bind]; [|discriminate].
  destruct (legacy w); [|exact (fun H => H)].
  destruct (existsb has_nul (parts q)); [discriminate|].
  destruct (stat w q) as [[| | | | |]|n]; congruence.
Qed.

Lemma realpath_root (w : world) (p q : PurePath) :
  realpath w p = Ok q -> root q = Root.
Proof.
  unfold realpath.
  destruct (joinrealpath _ _ _ _ _ _) as [q0 ok seen| |];
    intros [= <-]; reflexivity.
Qed.

Lemma resolve_root (w : world) (p r : PurePath) :
  resolve w p = Ok r -> root r = Root.
Proof. intros H. apply resolve_realpath in H. now apply realpath_root in H. Qed.

(** The parts of a resolved path are plain. *)
Lemma resolve_plain (w : world) (p r : PurePath) :
  resolve w p = Ok r -> forallb plain (parts r) = true.
Proof.
  unfold resolve, realpath.
  pose proof (joinrealpath_output (legacy w) (fs w)
                (S (List.length (symlink_paths (fs w))))
                (start_dir w p ++ parts p) [] []
                (resolved_part_nil _ _) (resolved_cache_nil _ _)) as Out.
  destruct (joinrealpath _ _ _ _ _ _) as [q ok seen| |];
    cbn [bind]; try discriminate.
  assert (Names : forallb (fun x => keep_part x && negb (x =? ".."))
                          (normparts [] q) = true)
    by (now apply normparts_names).
  destruct (legacy w) eqn:Lg.
  - destruct (existsb has_nul (normparts [] q)) eqn:N; cbn [parts] in *;
      rewrite N; [discriminate|].
    destruct (stat w _) as [[| | | | |]|n]; intros [= <-];
      now apply names_no_nul_plain.
  - intros [= <-]. cbn [parts].
    destruct ok; [|discriminate].
    destruct Out as [[P _] _]. now rewrite normparts_plain.
Qed.

(** A path that [realpath] returns free of links is what [resolve]
    returns. *)
Lemma resolve_of_realpath (w : world) (p q : PurePath) :
  realpath w p = Ok q ->
  forallb plain (parts q) = true ->
  link_free (fs w) (parts q) = true ->
  resolve w p = Ok q.
Proof.
  intros H P L. unfold resolve. rewrite H. cbn [bind].
  destruct (legacy w); [|reflexivity].
  rewrite (plain_no_nul _ P).
  destruct (stat_link_free w q (realpath_root _ _ _ H) P L) as [NE _].
  destruct (stat w q) as [[| | | | |]|n]; congruence.
Qed.

(** Below a path that [realpath] resolves, plain components that are no
    links resolve to themselves. *)
Lemma realpath_below (w : world) (R r : PurePath) (cs : list string) :
  realpath w R = Ok r ->
  forallb plain cs = true ->
  no_link_along (fs w) (parts r) cs = true ->
  realpath w (mkPath (root R) (parts R ++ cs)) =
  Ok (mkPath Root (parts r ++ cs)).
Proof.
  unfold realpath, start_dir. cbn [root parts].
  intros HR P L. rewrite app_assoc, joinrealpath_app.
  pose proof (joinrealpath_output (legacy w) (fs w)
                (S (List.length (symlink_paths (fs w))))
                (match root R with Relative => cwd w | _ => [] end ++ parts R)
                [] [] (resolved_part_nil _ _) (resolved_cache_nil _ _)) as Out.
  destruct (joinrealpath _ _ (fs w) [] (_ ++ parts R) [])
    as [q [|] seen| |]; try discriminate.
  - injection HR as <-. cbn [parts] in *.
    destruct Out as [[Pq _] _].
    rewrite (normparts_plain q [] Pq) in L. cbn [app] in L.
    rewrite <- (app_nil_r cs) at 1.
    rewrite joinrealpath_plain, joinrealpath_nil by assumption.
    now rewrite normparts_app_plain.
  - injection HR as <-. cbn [parts].
    now rewrite normparts_app_plain.
Qed.

Lemma resolve_below (w : world) (R r : PurePath) (cs : list string) :
  resolve w R = Ok r ->
  forallb plain cs = true ->
  link_free (fs w) (parts r ++ cs) = true ->
  resolve w (mkPath (root R) (parts R ++ cs)) = Ok (mkPath Root (parts r ++ cs)).
Proof.
  intros HR P L.
  pose proof (resolve_plain _ _ _ HR) as Pr.
  apply resolve_realpath in HR.
  unfold link_free in L. pose proof L as L'.
  rewrite no_link_along_app in L'. apply andb_prop in L' as [_ L'].
  apply resolve_of_realpath.
  - now apply realpath_below.
  - cbn [parts]. now rewrite forallb_app, Pr, P.
  - exact L.
Qed.

(** ** [safe_resolve] *)

(** What an accepted candidate is: the canonical form of the join, on or
    below the canonical form of the directory, segment by segment. *)
Lemma safe_resolve_confined (w : world) (directory : PurePath)
  (filename : string) (p : PurePath) :
  safe_resolve w directory filename = Ok (Some p) ->
  resolve w (directory / filename)%path = Ok p /\
  exists canonical,
    resolve w directory = Ok canonical /\
    is_relative_to p canonical = true /\
    root p = root canonical /\
    exists below, parts p = parts canonical ++ below.
Proof.
  unfold safe_resolve.
  destruct (resolve w (directory / filename)%path) as [q|[| |e]] eqn:E1;
    cbn [bind try_except_ValueError_OSError]; try discriminate.
  destruct (resolve w directory) as [c|[| |e]] eqn:E2;
    cbn [bind try_except_ValueError_OSError]; try discriminate.
  destruct (is_relative_to q c) eqn:E3;
    cbn [try_except_ValueError_OSError]; [|discriminate].
  intros [= <-]. split; [reflexivity|].
  exists c. repeat split; auto.
  - apply resolve_root in E1, E2. congruence.
  - unfold is_relative_to in E3. apply andb_prop in E3 as [_ E3].
    now apply is_prefix_iff.
Qed.

Lemma joinpath_relative (p : PurePath) (s : string) :
  startswith s "/" = false ->
  (p / s)%path = mkPath (root p) (parts p ++ parts (parse_path s)).
Proof. unfold joinpath. now intros ->. Qed.

Lemma safe_resolve_below (w : world) (R r : PurePath) (C : string) :
  startswith C "/" = false ->
  forallb (fun x => negb (x =? "..")) (split "/" C) = true ->
  has_nul C = false ->
  resolve w R = Ok r ->
  link_free (fs w) (parts r ++ parts (parse_path C)) = true ->
  safe_resolve w R C =
  Ok (Some (mkPath Root (parts r ++ parts (parse_path C)))).
Proof.
  intros A D N HR L. unfold safe_resolve.
  rewrite (joinpath_relative _ _ A).
  rewrite (resolve_below w R r _ HR (candidate_parts_plain C D N) L), HR.
  cbn [bind]. unfold is_relative_to. cbn [root parts].
  rewrite (resolve_root _ _ _ HR), is_prefix_app. reflexivity.
Qed.

(** C2, as stated, fails: the candidate [evil.obj] has no [..] segment
    and is not absolute, and [safe_resolve] rejects it, the entry being a
    link that leaves the directory; so does a candidate with a null
    character. And when the directory is itself reached through a link, the
    path returned for [a.obj] is below the canonical directory
    [/mnt/hlod], not below the directory as written. *)
Lemma C2_counterexample :
  (startswith "evil.obj" "/" = false /\
   forallb (fun x => negb (x =? "..")) (split "/" "evil.obj") = true /\
   safe_resolve linked_hlod (GAME demo_BASE / "hlod")%path "evil.obj" = Ok None) /\
  safe_resolve demo (GAME demo_BASE / "hlod")%path
               (String "a" (String zero ".obj")) = Ok None /\
  (safe_resolve moved_hlod (GAME demo_BASE / "hlod")%path "a.obj" =
     Ok (Some (mkPath Root ["mnt"; "hlod"; "a.obj"])) /\
   is_relative_to (mkPath Root ["mnt"; "hlod"; "a.obj"])
                  (GAME demo_BASE / "hlod")%path = false).
Proof. repeat split; reflexivity. Qed.

(** C2, amended. For every directory [R] whose canonical form [r] exists
    and every candidate [C] that is not absolute, has no [..] segment and no
    null character: when no component of [r], and no component of [C]
    followed from [r], is a symbolic link, [safe_resolve] accepts [C] and
    returns [r] followed by the components of [C], a path on or below [r]
    segment by segment; it is below [R] as written when [R] is its own
    canonical form. *)
Theorem C2_plain_candidate_accepted :
  forall (w : world) (R r : PurePath) (C : string),
    startswith C "/" = false ->
    forallb (fun x => negb (x =? "..")) (split "/" C) = true ->
    has_nul C = false ->
    resolve w R = Ok r ->
    link_free (fs w) (parts r ++ parts (parse_path C)) = true ->
    safe_resolve w R C =
      Ok (Some (mkPath Root (parts r ++ parts (parse_path C)))) /\
    is_relative_to (mkPath Root (parts r ++ parts (parse_path C))) r = true /\
    (r = R -> mkPath Root (parts r ++ parts (parse_path C)) = (R / C)%path).
Proof.
  intros w R r C A D N HR L. split; [|split].
  - now apply safe_resolve_below.
  - unfold is_relative_to. cbn [root parts].
    rewrite (resolve_root _ _ _ HR), is_prefix_app. reflexivity.
  - intros <-. rewrite (joinpath_relative _ _ A).
    now rewrite (resolve_root _ _ _ HR).
Qed.

Lemma C2_plain_candidate_witness :
  safe_resolve demo (GAME demo_BASE / "hlod")%path "a.obj" =
    Ok (Some (mkPath Root ["srv"; "app"; "game_data"; "hlod"; "a.obj"])) /\
  safe_resolve moved_hlod (GAME demo_BASE / "hlod")%path "a.obj" =
    Ok (Some (mkPath Root ["mnt"; "hlod"; "a.obj"])).
Proof.
  split.
  - apply (C2_plain_candidate_accepted demo (GAME demo_BASE / "hlod")%path
             (mkPath Root ["srv"; "app"; "game_data"; "hlod"]) "a.obj");
      reflexivity.
  - apply (C2_plain_candidate_accepted moved_hlod (GAME demo_BASE / "hlod")%path
             (mkPath Root ["mnt"; "hlod"]) "a.obj");
      reflexivity.
Defined.

(** ** The request [/hlod/../../secret.obj] *)

Lemma hlod_dir_parts (BASE : PurePath) :
  hlod_dir BASE = mkPath (root BASE) (parts BASE ++ ["game_data"; "hlod"]).
Proof.
  unfold hlod_dir, GAME. rewrite !joinpath_relative by reflexivity.
  cbn. now rewrite <- app_assoc.
Qed.

Lemma escaping_join_parts (BASE : PurePath) :
  (hlod_dir BASE / "../../secret.obj")%path =
  mkPath (root BASE)
         ((parts BASE ++ ["game_data"; "hlod"]) ++ [".."; ".."; "secret.obj"]).
Proof.
  rewrite hlod_dir_parts. now rewrite joinpath_relative by reflexivity.
Qed.

Section NoLinkOnTheWay.

Variable w : world.
Variable BASE : PurePath.
Hypothesis absolute : root BASE = Root.
Hypothesis plain_parts : forallb plain (parts BASE) = true.
Hypothesis no_link :
  link_free (fs w) (parts BASE ++ ["game_data"; "hlod"]) = true.

Lemma hlod_parts_plain :
  forallb plain (parts BASE ++ ["game_data"; "hlod"]) = true.
Proof. rewrite forallb_app, plain_parts. reflexivity. Qed.

Lemma base_link_free : link_free (fs w) (parts BASE) = true.
Proof.
  pose proof no_link as L. unfold link_free in *.
  rewrite no_link_along_app in L. now apply andb_prop in L as [L _].
Qed.

(** The directory is its own canonical form. *)
Lemma resolve_hlod_dir :
  resolve w (hlod_dir BASE) =
  Ok (mkPath Root (parts BASE ++ ["game_data"; "hlod"])).
Proof.
  apply resolve_of_realpath; [| apply hlod_parts_plain | apply no_link].
  rewrite hlod_dir_parts. unfold realpath, start_dir.
  cbn [root parts]. rewrite absolute. cbn [app].
  rewrite <- (app_nil_r (parts BASE ++ ["game_data"; "hlod"])) at 1.
  rewrite joinrealpath_plain by (apply hlod_parts_plain || apply no_link).
  rewrite joinrealpath_nil. cbn [app].
  now rewrite (normparts_plain _ [] hlod_parts_plain).
Qed.

(** The candidate resolves to [secret.obj] beside [game_data]. *)
Lemma resolve_escaping_join :
  is_link (fs w) (parts BASE ++ ["secret.obj"]) = false ->
  resolve w (hlod_dir BASE / "../../secret.obj")%path =
  Ok (mkPath Root (parts BASE ++ ["secret.obj"])).
Proof.
  intros S.
  assert (P : forallb plain (parts BASE ++ ["secret.obj"]) = true)
    by (rewrite forallb_app, plain_parts; reflexivity).
  apply resolve_of_realpath; [| exact P |].
  - rewrite escaping_join_parts. unfold realpath, start_dir.
    cbn [root parts]. rewrite absolute. cbn [app].
    rewrite joinrealpath_plain by (apply hlod_parts_plain || apply no_link).
    cbn [app].
    change (parts BASE ++ ["game_data"; "hlod"])
      with (parts BASE ++ ["game_data"] ++ ["hlod"]).
    rewrite app_assoc, joinrealpath_dotdot, joinrealpath_dotdot.
    rewrite joinrealpath_plain_step by (assumption || reflexivity).
    rewrite joinrealpath_nil.
    now rewrite (normparts_plain _ [] P).
  - cbn [parts]. now rewrite link_free_snoc, base_link_free, S.
Qed.

Lemma escaping_candidate_rejected :
  is_link (fs w) (parts BASE ++ ["secret.obj"]) = false ->
  safe_resolve w (hlod_dir BASE) "../../secret.obj" = Ok None.
Proof.
  intros S. unfold safe_resolve.
  rewrite (resolve_escaping_join S). cbn [bind].
  rewrite resolve_hlod_dir. cbn [bind].
  unfold is_relative_to. cbn [root parts anchor_eqb andb].
  now rewrite is_prefix_app_same.
Qed.

End NoLinkOnTheWay.

(** What a request below an asset prefix can get: the 404, or the bytes
    read at the canonical form of the join, a path on or below the
    canonical directory; when that path holds no link, the bytes of the
    regular file at that place of the tree. *)
Lemma asset_reply_confined (w : world) (BASE : PurePath) (h h' : handler)
  (name filename : string) (directory : PurePath) (ext ctype : string) :
  dict_get name (ASSET_ROUTES BASE) = Some (directory, ext, ctype) ->
  request_path h = (asset_prefix name ++ filename)%string ->
  do_GET w BASE h = Ok h' ->
  h' = send_error 404 h \/
  exists p canonical data,
    resolve w (directory / filename)%path = Ok p /\
    resolve w directory = Ok canonical /\
    is_relative_to p canonical = true /\
    read_bytes w p = Ok data /\
    h' = reply_200 h (file_fields ctype data) data /\
    (link_free (fs w) (parts p) = true ->
     lookup_path (fs w) (parts p) = Some (File true data)).
Proof.
  intros Hr Hp.
  rewrite (asset_request_reaches_route w BASE h name filename
             directory ext ctype Hr Hp).
  destruct (safe_resolve w directory filename) as [[p|]|e] eqn:E;
    cbn [bind]; [| intros [= <-]; now left | discriminate].
  intros H. apply serve_file_reply in H as [[_ ->] | [data [_ [R ->]]]];
    [now left | right].
  apply safe_resolve_confined in E as [E1 [c [E2 [E3 _]]]].
  exists p, c, data. repeat split; auto.
  intros L. apply read_bytes_link_free; auto.
  - now apply resolve_root in E1.
  - now apply resolve_plain in E1.
Qed.

(** C1, as stated, fails in its last part: with [secret.obj] a link into
    the [hlod] directory, the request for [/hlod/../../secret.obj] is
    answered 200, with the three bytes of [game_data/hlod/a.obj], not
    404. *)
Lemma C1_counterexample :
  do_GET aliased_secret demo_BASE escaping_request =
  Ok (reply_200 escaping_request
                (file_fields "model/obj" (encode "o a")) (encode "o a")) /\
  status (reply_200 escaping_request
                    (file_fields "model/obj" (encode "o a")) (encode "o a")) =
  Some 200.
Proof. split; reflexivity. Qed.

(** C1, amended. Whenever [safe_resolve] returns a path, the path is the
    canonical form of the join and lies on or below the canonical form of
    the directory, segment by segment. Hence the request for
    [/hlod/../../secret.obj] is answered either by the 404 or by the bytes
    read at such a path, which are the bytes of the regular file at that
    place on or below the canonical [hlod] directory when the path holds no
    symbolic link; and it is answered 404 whenever [BASE] is absolute with
    plain parts and no symbolic link lies on the way to [game_data/hlod] or
    at [secret.obj] beside [game_data]. *)
Theorem C1_confinement :
  (forall (w : world) (directory : PurePath) (filename : string) (p : PurePath),
      safe_resolve w directory filename = Ok (Some p) ->
      resolve w (directory / filename)%path = Ok p /\
      exists canonical,
        resolve w directory = Ok canonical /\
        is_relative_to p canonical = true /\
        root p = root canonical /\
        exists below, parts p = parts canonical ++ below) /\
  (forall (w : world) (BASE : PurePath) (h h' : handler),
      request_path h = "/hlod/../../secret.obj" ->
      do_GET w BASE h = Ok h' ->
      h' = send_error 404 h \/
      exists p canonical data,
        resolve w (hlod_dir BASE / "../../secret.obj")%path = Ok p /\
        resolve w (hlod_dir BASE) = Ok canonical /\
        is_relative_to p canonical = true /\
        read_bytes w p = Ok data /\
        h' = reply_200 h (file_fields "model/obj" data) data /\
        (link_free (fs w) (parts p) = true ->
         lookup_path (fs w) (parts p) = Some (File true data))) /\
  (forall (w : world) (BASE : PurePath) (h : handler),
      request_path h = "/hlod/../../secret.obj" ->
      root BASE = Root ->
      forallb plain (parts BASE) = true ->
      link_free (fs w) (parts BASE ++ ["game_data"; "hlod"]) = true ->
      is_link (fs w) (parts BASE ++ ["secret.obj"]) = false ->
      do_GET w BASE h = Ok (send_error 404 h)).
Proof.
  split; [exact safe_resolve_confined|]. split.
  - intros w BASE h h' Hp H.
    now apply (asset_reply_confined w BASE h h' "hlod" "../../secret.obj"
                 (hlod_dir BASE) ".obj" "model/obj").
  - intros w BASE h Hp A P L S.
    rewrite (asset_request_reaches_route w BASE h "hlod" "../../secret.obj"
               (hlod_dir BASE) ".obj" "model/obj" eq_refl Hp).
    now rewrite escaping_candidate_rejected.
Qed.

Lemma C1_confinement_witness :
  do_GET demo demo_BASE escaping_request = Ok (send_error 404 escaping_request) /\
  (resolve demo (hlod_dir demo_BASE / "a.obj")%path =
     Ok (mkPath Root ["srv"; "app"; "game_data"; "hlod"; "a.obj"]) /\
   is_relative_to (mkPath Root ["srv"; "app"; "game_data"; "hlod"; "a.obj"])
                  (mkPath Root ["srv"; "app"; "game_data"; "hlod"]) = true).
Proof.
  destruct C1_confinement as [A [_ C]]. split.
  - apply (C demo demo_BASE escaping_request); reflexivity.
  - destruct (A demo (hlod_dir demo_BASE) "a.obj"
                (mkPath Root ["srv"; "app"; "game_data"; "hlod"; "a.obj"])
                eq_refl) as [E [c [Ec [R _]]]].
    split; [exact E|].
    vm_compute in Ec. injection Ec as <-. exact R.
Defined.

(** Up to Python 3.12 the canonical form can hold a link: [realpath] stops
    at the loop [loop], the [..] after it is then removed as text, and the
    link [evil] is never followed. The candidate [loop/../evil/passwd] is
    accepted as [hlod/evil/passwd], below the directory segment by segment,
    and the bytes read there are those of [/etc/passwd]. From 3.13 on the
    same candidate is rejected. *)
Lemma legacy_loop_leaves_root :
  safe_resolve looped_escape (hlod_dir demo_BASE) "loop/../evil/passwd" =
    Ok (Some (mkPath Root ["srv"; "app"; "game_data"; "hlod"; "evil"; "passwd"])) /\
  link_free (fs looped_escape)
            ["srv"; "app"; "game_data"; "hlod"; "evil"; "passwd"] = false /\
  do_GET looped_escape demo_BASE
         (fresh "GET /hlod/loop/../evil/passwd HTTP/1.1"
                "/hlod/loop/../evil/passwd") =
    Ok (reply_200 (fresh "GET /hlod/loop/../evil/passwd HTTP/1.1"
                         "/hlod/loop/../evil/passwd")
                  (file_fields "model/obj" (encode "root")) (encode "root")) /\
  lookup_path (fs looped_escape) ["etc"; "passwd"] =
    Some (File true (encode "root")) /\
  safe_resolve (mkWorld (fs looped_escape) (cwd looped_escape) false)
               (hlod_dir demo_BASE) "loop/../evil/passwd" = Ok None.
Proof. repeat split; reflexivity. Qed.

(** ** Errors that are no 404 *)

(** C3 does not hold of the code. [_serve_file] tests that the path
    exists and then reads it outside any [try]: the request [/hlod/], whose
    candidate is empty, resolves to the directory itself and the read raises
    [IsADirectoryError]; an unreadable file raises [PermissionError]; a
    [list_files] on a path
    that is no directory raises [NotADirectoryError]; and up to Python 3.12
    a link loop makes [resolve] raise [RuntimeError], which [safe_resolve]
    does not catch. In each case the exception leaves [do_GET]: no status
    line is written. *)
Lemma C3_errors_escape_do_GET :
  do_GET demo demo_BASE (fresh "GET /hlod/ HTTP/1.1" "/hlod/") =
    Raise (OSError EISDIR) /\
  do_GET locked_file demo_BASE
         (fresh "GET /hlod/locked.obj HTTP/1.1" "/hlod/locked.obj") =
    Raise (OSError EACCES) /\
  do_GET hlod_is_file demo_BASE (fresh "GET /list_hlod HTTP/1.1" "/list_hlod") =
    Raise (OSError ENOTDIR) /\
  do_GET looping_link demo_BASE
         (fresh "GET /hlod/loop HTTP/1.1" "/hlod/loop") =
    Raise RuntimeError.
Proof. repeat split; reflexivity. Qed.

(** ** The nesting depth given to [realpath] is never used up

    A link is entered only when it is not in [seen], and stays marked as
    being resolved while the walk is inside it: the links being resolved are
    distinct links of the tree. *)

Lemma symlink_paths_complete (q : list string) :
  forall (n : node) (target : string),
    lookup_path n q = Some (Symlink target) -> In q (symlink_paths n).
Proof.
  induction q as [|x q IH]; intros n target H.
  - cbn in H. injection H as ->. now left.
  - destruct n as [| entries |]; cbn [lookup_path] in H; try discriminate.
    cbn [symlink_paths].
    induction entries as [|[y child] entries IHe];
      cbn [dict_get] in H; [discriminate|].
    apply in_or_app.
    destruct (String.eqb_spec y x) as [->|Ne].
    + left. apply in_map. now apply (IH child target).
    + right. now apply IHe.
Qed.

Lemma filter_length_mono {A : Type} (f g : A -> bool) (l : list A) :
  (forall x, g x = true -> f x = true) ->
  List.length (filter g l) <= List.length (filter f l).
Proof.
  intros Hfg. induction l as [|x l IH]; cbn [filter]; [lia|].
  destruct (g x) eqn:G.
  - rewrite (Hfg x G). cbn [List.length]. lia.
  - destruct (f x); cbn [List.length]; lia.
Qed.

Lemma filter_length_lt {A : Type} (f g : A -> bool) (l : list A) (a : A) :
  (forall x, g x = true -> f x = true) ->
  In a l -> f a = true -> g a = false ->
  List.length (filter g l) < List.length (filter f l).
Proof.
  intros Hfg. induction l as [|x l IH]; intros Ha Fa Ga; [contradiction|].
  cbn [filter]. destruct Ha as [->|Ha].
  - rewrite Fa, Ga. cbn [List.length].
    pose proof (filter_length_mono f g l Hfg). lia.
  - specialize (IH Ha Fa Ga). destruct (g x) eqn:G.
    + rewrite (Hfg x G). cbn [List.length]. lia.
    + destruct (f x); cbn [List.length]; lia.
Qed.

Lemma is_open_cons (seen : seen_map) (k k' : list string)
  (v : option (list string)) :
  is_open ((k', v) :: seen) k =
  if path_eq_dec k' k then match v with None => true | Some _ => false end
  else is_open seen k.
Proof.
  unfold is_open. cbn [seen_get].
  destruct (path_eq_dec k' k); [now destruct v | reflexivity].
Qed.

Lemma idle_links_ext (t : node) (seen seen' : seen_map) :
  (forall k, is_open seen' k = is_open seen k) ->
  idle_links t seen' = idle_links t seen.
Proof.
  intros H. unfold idle_links. apply filter_ext. intros k. now rewrite H.
Qed.

Lemma idle_links_enter (t : node) (seen : seen_map) (k : list string)
  (target : string) :
  lookup_path t k = Some (Symlink target) ->
  seen_get k seen = None ->
  List.length (idle_links t ((k, None) :: seen)) <
  List.length (idle_links t seen).
Proof.
  intros L S. unfold idle_links.
  apply filter_length_lt with (a := k).
  - intros x. rewrite is_open_cons.
    destruct (path_eq_dec k x); [discriminate | auto].
  - now apply symlink_paths_complete with (target := target).
  - unfold is_open. now rewrite S.
  - rewrite is_open_cons. now destruct (path_eq_dec k k).
Qed.

Lemma joinrealpath_depth (stop : bool) (t : node) (d : nat) :
  forall (rest path : list string) (seen : seen_map),
    List.length (idle_links t seen) < d ->
    match joinrealpath d stop t path rest seen with
    | RpDepth => False
    | RpDone _ true seen' => forall k, is_open seen' k = is_open seen k
    | _ => True
    end.
Proof.
  induction d as [|d IHd]; [intros; lia|].
  induction rest as [|name rest IHr]; intros path seen M.
  - rewrite joinrealpath_nil. reflexivity.
  - rewrite joinrealpath_cons.
    destruct ((name =? "") || (name =? ".")); [now apply IHr|].
    destruct (name =? ".."); [now apply IHr|].
    destruct (has_nul name); [exact I|].
    destruct (lookup_path t (path ++ [name])) as [[| |target]|] eqn:L;
      try now apply IHr.
    destruct (seen_get (path ++ [name]) seen) as [[cached|]|] eqn:Sg;
      [now apply IHr | destruct stop; [exact I | now apply IHr] |].
    pose proof (idle_links_enter t seen _ _ L Sg) as Lt.
    assert (M1 : List.length (idle_links t ((path ++ [name], None) :: seen)) < d)
      by lia.
    specialize (IHd (target_parts target) (target_start target path) _ M1).
    destruct (joinrealpath d stop t (target_start target path)
                (target_parts target) ((path ++ [name], None) :: seen))
      as [p [|] seen'| |]; [| exact I | exact I | exact IHd].
    assert (O : forall k, is_open ((path ++ [name], Some p) :: seen') k =
                          is_open seen k).
    { intros k. rewrite is_open_cons.
      destruct (path_eq_dec (path ++ [name]) k) as [<-|Ne].
      - unfold is_open. now rewrite Sg.
      - rewrite IHd, is_open_cons.
        now destruct (path_eq_dec (path ++ [name]) k). }
    assert (M2 : List.length (idle_links t ((path ++ [name], Some p) :: seen'))
                 < S d)
      by (rewrite (idle_links_ext t seen _ O); exact M).
    specialize (IHr p _ M2).
    destruct (joinrealpath (S d) stop t p rest ((path ++ [name], Some p) :: seen'))
      as [p' [|] seen''| |]; auto.
    intros k. now rewrite IHr, O.
Qed.

(** [realpath] is given a depth it never exhausts: its last case is never
    taken. *)
Lemma realpath_depth_suffices (w : world) (p : PurePath) :
  joinrealpath (S (List.length (symlink_paths (fs w)))) (legacy w) (fs w) []
               (start_dir w p ++ parts p) [] <> RpDepth.
Proof.
  intros H.
  pose proof (joinrealpath_depth (legacy w) (fs w)
                (S (List.length (symlink_paths (fs w))))
                (start_dir w p ++ parts p) [] []) as K.
  rewrite H in K. apply K.
  unfold idle_links.
  pose proof (List.filter_length_le (fun k => negb (is_open [] k))
                (symlink_paths (fs w))).
  lia.
Qed.

(** ** The cross-origin header *)

(** Every reply of [do_GET] that has a status line, the 404 included,
    carries [Access-Control-Allow-Origin: *]: [end_headers] adds it. *)
Theorem cross_origin_header_on_every_reply :
  forall (w : world) (BASE : PurePath) (line target : string) (h' : handler)
         (code : nat),
    do_GET w BASE (fresh line target) = Ok h' ->
    status h' = Some code ->
    dict_get "Access-Control-Allow-Origin" (headers h') = Some "*".
Proof.
  intros w BASE line target h' code H Hs.
  apply do_GET_reply_of in H.
  destruct H as [ | names | path ctype data R | | ]; try discriminate.
  - now rewrite send_error_404.
  - reflexivity.
  - reflexivity.
Qed.

Lemma cross_origin_header_witness :
  match do_GET demo demo_BASE escaping_request with
  | Ok h' => dict_get "Access-Control-Allow-Origin" (headers h') = Some "*"
  | Raise _ => False
  end.
Proof.
  destruct (do_GET demo demo_BASE escaping_request) as [h'|e] eqn:H;
    [|vm_compute in H; discriminate].
  apply (cross_origin_header_on_every_reply demo demo_BASE _ _ h' 404 H).
  vm_compute in H. injection H as <-. reflexivity.
Defined.

(** * Further properties of the program *)

(** ** The statuses [do_GET] writes *)

(** A parsed request leaves [do_GET] in one of three states: a 200 with
    its headers and body and no error page; the 404 of [send_error], with
    no body of the program's own and nothing logged; or the untouched
    handler handed to the static fallback. No other status is written. *)
Theorem do_GET_writes_200_or_404 :
  forall (w : world) (BASE : PurePath) (line target : string) (h' : handler),
    do_GET w BASE (fresh line target) = Ok h' ->
    (status h' = Some 200 /\ static h' = false /\ error_page h' = None) \/
    (status h' = Some 404 /\ static h' = false /\ error_page h' = Some 404 /\
     body h' = [] /\ log h' = []) \/
    (status h' = None /\ static h' = true /\ error_page h' = None /\
     headers h' = [] /\ body h' = [] /\ log h' = []).
Proof.
  intros w BASE line target h' H.
  apply do_GET_reply_of in H.
  destruct H as [ | names | path ctype data R | | ].
  - right; left. rewrite send_error_404. repeat split.
  - left. repeat split.
  - left. repeat split.
  - right; right. repeat split.
  - right; right. repeat split.
Qed.

Lemma do_GET_writes_200_or_404_witness :
  match do_GET demo demo_BASE (fresh "GET /hlod/a.obj HTTP/1.1" "/hlod/a.obj") with
  | Ok h' => status h' = Some 200 /\ static h' = false
  | Raise _ => False
  end.
Proof.
  destruct (do_GET demo demo_BASE
              (fresh "GET /hlod/a.obj HTTP/1.1" "/hlod/a.obj"))
    as [h'|e] eqn:H; [|vm_compute in H; discriminate].
  destruct (do_GET_writes_200_or_404 demo demo_BASE _ _ h' H)
    as [[A [B _]] | [[A _] | [A _]]];
    [now split | | ];
    vm_compute in H; injection H as <-; discriminate.
Defined.

(** ** The singleton rule *)

Lemma read_bytes_exists (w : world) (p : PurePath) (data : list byte) :
  read_bytes w p = Ok data -> exists_ w p = Ok true.
Proof.
  unfold read_bytes, exists_. now destruct (stat w p).
Qed.

(** A request path that is a key of [SINGLE_FILE_ROUTES] is answered from
    that entry alone: 404 when the file does not exist, and otherwise the
    bytes read from it under the entry's content type, with the
    [Cache-Control] field; a read that raises leaves [do_GET]. *)
Theorem singleton_reply :
  forall (w : world) (BASE : PurePath) (h : handler) (file : PurePath)
         (ctype : string),
    dict_get (request_path h) (SINGLE_FILE_ROUTES BASE) = Some (file, ctype) ->
    (exists_ w file = Ok false -> do_GET w BASE h = Ok (send_error 404 h)) /\
    (forall data, read_bytes w file = Ok data ->
                  do_GET w BASE h = Ok (reply_200 h (file_fields ctype data) data)) /\
    (forall e, exists_ w file = Ok true -> read_bytes w file = Raise e ->
               do_GET w BASE h = Raise e).
Proof.
  intros w BASE h file ctype Hs.
  unfold do_GET. rewrite (singleton_first _ _ _ _ _ _ Hs).
  split; [|split].
  - intros E. unfold _serve_file. now rewrite E.
  - intros data R.
    destruct (_serve_file w file ctype h) as [h'|e] eqn:S.
    + apply serve_file_reply in S as [[E _] | [d [_ [R' ->]]]].
      * rewrite (read_bytes_exists _ _ _ R) in E. discriminate.
      * congruence.
    + unfold _serve_file in S.
      rewrite (read_bytes_exists _ _ _ R), R in S. discriminate.
  - intros e E R. unfold _serve_file. now rewrite E, R.
Qed.

Lemma singleton_reply_witness :
  do_GET demo demo_BASE (fresh "GET /manifest HTTP/1.1" "/manifest") =
    Ok (reply_200 (fresh "GET /manifest HTTP/1.1" "/manifest")
                  (file_fields "application/json" (encode "{}")) (encode "{}")) /\
  do_GET demo demo_BASE (fresh "GET /skybox.png HTTP/1.1" "/skybox.png") =
    Ok (send_error 404 (fresh "GET /skybox.png HTTP/1.1" "/skybox.png")).
Proof.
  split.
  - apply (singleton_reply demo demo_BASE
             (fresh "GET /manifest HTTP/1.1" "/manifest")
             (demo_BASE / "manifests" / "android_manifest.json")%path
             "application/json" eq_refl).
    reflexivity.
  - apply (singleton_reply demo demo_BASE
             (fresh "GET /skybox.png HTTP/1.1" "/skybox.png")
             (demo_BASE / "skybox.png")%path "image/png" eq_refl).
    reflexivity.
Defined.

(** ** The listing rule *)

Lemma listing_request_reaches_route (w : world) (BASE : PurePath) (h : handler)
  (name : string) (directory : PurePath) (ext ctype : string) :
  dict_get name (ASSET_ROUTES BASE) = Some (directory, ext, ctype) ->
  request_path h = ("/list_" ++ name)%string ->
  do_GET w BASE h =
  (data <- list_files w directory ext;; Ok (_serve_json data h)).
Proof.
  intros Hr Hp. unfold do_GET, do_GET_routes. fold (request_path h).
  rewrite Hp.
  apply asset_route_names in Hr as [[-> E]|[[-> E]|[[-> E]|[-> E]]]];
    injection E as -> -> ->; reflexivity.
Qed.

(** A request path [/list_<name>] for a route of the program is never
    answered 404: when the route's directory does not exist the reply is
    200 with the two bytes of the empty array, and when it is a directory
    the reply is 200 with the array of its entry names that end with the
    route's extension, in ascending order; there is no [Cache-Control]
    field. *)
Theorem listing_reply :
  forall (w : world) (BASE : PurePath) (h : handler) (name : string)
         (directory : PurePath) (ext ctype : string),
    dict_get name (ASSET_ROUTES BASE) = Some (directory, ext, ctype) ->
    request_path h = ("/list_" ++ name)%string ->
    (exists_ w directory = Ok false ->
     do_GET w BASE h =
       Ok (reply_200 h (json_fields (encode "[]")) (encode "[]"))) /\
    (forall entries,
        stat w directory = inr (Dir entries) ->
        let body :=
          encode (json_dumps
                    (sorted (filter (fun f => endswith f ext) (map fst entries)))) in
        do_GET w BASE h = Ok (reply_200 h (json_fields body) body)) /\
    (forall h', do_GET w BASE h = Ok h' ->
                status h' = Some 200 /\
                exists data,
                  body h' = body h ++ data /\
                  headers h' = headers h ++ json_fields data /\
                  dict_get "Cache-Control" (json_fields data) = None).
Proof.
  intros w BASE h name directory ext ctype Hr Hp.
  rewrite (listing_request_reaches_route w BASE h name directory ext ctype Hr Hp).
  split; [|split].
  - intros E. unfold list_files. rewrite E. cbn [negb bind].
    now rewrite serve_json_reply.
  - intros entries S body0.
    rewrite (list_files_of_dir _ _ _ _ S). cbn [bind].
    now rewrite serve_json_reply.
  - intros h'. destruct (list_files w directory ext) as [names|e];
      cbn [bind]; [|discriminate].
    intros [= <-]. rewrite serve_json_reply. split; [reflexivity|].
    exists (encode (json_dumps names)). repeat split.
Qed.

Lemma listing_reply_witness :
  do_GET demo demo_BASE (fresh "GET /list_textures HTTP/1.1" "/list_textures") =
    Ok (reply_200 (fresh "GET /list_textures HTTP/1.1" "/list_textures")
                  (json_fields (encode "[]")) (encode "[]")).
Proof.
  apply (listing_reply demo demo_BASE
           (fresh "GET /list_textures HTTP/1.1" "/list_textures") "textures"
           (GAME demo_BASE / "textures")%path ".png" "image/png");
    reflexivity.
Defined.

(** ** The site root *)

(** The request path [/] matches no rule of the program: [self.path]
    becomes [/index.html], whatever query followed the slash, and the
    request goes to the static fallback with nothing written. *)
Theorem root_is_index_html :
  forall (w : world) (BASE : PurePath) (h : handler),
    request_path h = "/" ->
    do_GET w BASE h = Ok (super_do_GET (set_path "/index.html" h)) /\
    self_path (super_do_GET (set_path "/index.html" h)) = "/index.html" /\
    status (super_do_GET (set_path "/index.html" h)) = status h.
Proof.
  intros w BASE h Hp. repeat split.
  unfold do_GET, do_GET_routes. fold (request_path h). now rewrite Hp.
Qed.

Lemma root_is_index_html_witness :
  do_GET demo demo_BASE (fresh "GET /?v=1 HTTP/1.1" "/?v=1") =
  Ok (super_do_GET (set_path "/index.html" (fresh "GET /?v=1 HTTP/1.1" "/?v=1"))).
Proof.
  apply (root_is_index_html demo demo_BASE (fresh "GET /?v=1 HTTP/1.1" "/?v=1")).
  reflexivity.
Defined.

(** ** The rules never compete on the program's tables *)

Lemma asset_prefixes_disjoint (BASE : PurePath) (path : string)
  (r1 r2 : string * asset_route) :
  In r1 (ASSET_ROUTES BASE) -> In r2 (ASSET_ROUTES BASE) ->
  startswith path (asset_prefix (fst r1)) = true ->
  startswith path (asset_prefix (fst r2)) = true ->
  r1 = r2.
Proof.
  unfold ASSET_ROUTES. cbn [In].
  intros [<-|[<-|[<-|[<-|[]]]]] [<-|[<-|[<-|[<-|[]]]]] H1 H2;
    try reflexivity;
    apply startswith_inv in H1; rewrite H1 in H2; discriminate H2.
Qed.

(** For every request path, at most one of the singleton, listing and
    asset rules matches, and at most one asset route has its prefix at the
    start of the path: on the tables of the program the order of the rules
    and the order of [ASSET_ROUTES] never decide an answer. *)
Theorem rules_never_overlap :
  forall (BASE : PurePath) (path : string),
    match spec_singleton (SINGLE_FILE_ROUTES BASE) path,
          spec_listing (ASSET_ROUTES BASE) path,
          spec_asset (ASSET_ROUTES BASE) path with
    | Some _, Some _, _ => False
    | Some _, _, Some _ => False
    | _, Some _, Some _ => False
    | _, _, _ => True
    end /\
    forall r1 r2 : string * asset_route,
      In r1 (ASSET_ROUTES BASE) -> In r2 (ASSET_ROUTES BASE) ->
      startswith path (asset_prefix (fst r1)) = true ->
      startswith path (asset_prefix (fst r2)) = true ->
      r1 = r2.
Proof.
  intros BASE path. split; [|apply asset_prefixes_disjoint].
  unfold spec_singleton, SINGLE_FILE_ROUTES. cbn [find fst].
  destruct (String.eqb_spec "/manifest" path) as [<-|_]; [exact I|].
  destruct (String.eqb_spec "/all_hlod_manifest" path) as [<-|_]; [exact I|].
  destruct (String.eqb_spec "/ocean.obj" path) as [<-|_]; [exact I|].
  destruct (String.eqb_spec "/ocean.glb" path) as [<-|_]; [exact I|].
  destruct (String.eqb_spec "/skybox.png" path) as [<-|_]; [exact I|].
  destruct (String.eqb_spec "/overrides.json" path) as [<-|_]; [exact I|].
  unfold spec_listing, ASSET_ROUTES. cbn [find fst append].
  destruct (String.eqb_spec path "/list_hlod") as [->|_]; [exact I|].
  destruct (String.eqb_spec path "/list_terrain") as [->|_]; [exact I|].
  destruct (String.eqb_spec path "/list_hlod_all") as [->|_]; [exact I|].
  destruct (String.eqb_spec path "/list_textures") as [->|_]; [exact I|].
  exact I.
Qed.

(** ** The empty candidate *)

Lemma joinpath_empty (p : PurePath) : (p / "")%path = p.
Proof.
  rewrite joinpath_relative by reflexivity. cbn.
  rewrite app_nil_r. now destruct p.
Qed.

Lemma is_relative_to_refl (p : PurePath) : is_relative_to p p = true.
Proof.
  unfold is_relative_to. rewrite <- (app_nil_r (parts p)) at 2.
  rewrite is_prefix_app. now destruct (root p).
Qed.

(** [safe_resolve] accepts the empty candidate and returns the canonical
    directory itself. So the request path that is just the prefix
    [/<name>/] of a route whose directory exists is not answered: the read
    of the directory raises [IsADirectoryError] out of [do_GET]. *)
Theorem empty_candidate_is_the_directory :
  forall (w : world) (BASE : PurePath) (h : handler) (name : string)
         (directory r : PurePath) (ext ctype : string)
         (entries : list (string * node)),
    dict_get name (ASSET_ROUTES BASE) = Some (directory, ext, ctype) ->
    request_path h = asset_prefix name ->
    resolve w directory = Ok r ->
    stat w r = inr (Dir entries) ->
    safe_resolve w directory "" = Ok (Some r) /\
    do_GET w BASE h = Raise (OSError EISDIR).
Proof.
  intros w BASE h name directory r ext ctype entries Hr Hp HR S.
  assert (E : safe_resolve w directory "" = Ok (Some r)).
  { unfold safe_resolve. rewrite joinpath_empty, HR. cbn [bind].
    now rewrite is_relative_to_refl. }
  split; [exact E|].
  assert (Hp' : request_path h = (asset_prefix name ++ "")%string).
  { rewrite Hp. clear. induction (asset_prefix name) as [|c s IH];
      [reflexivity | cbn; now rewrite <- IH]. }
  rewrite (asset_request_reaches_route w BASE h name "" directory ext ctype Hr Hp').
  rewrite E. cbn [bind]. unfold _serve_file, exists_, read_bytes.
  now rewrite S.
Qed.

Lemma empty_candidate_witness :
  safe_resolve demo (hlod_dir demo_BASE) "" =
    Ok (Some (mkPath Root ["srv"; "app"; "game_data"; "hlod"])) /\
  do_GET demo demo_BASE (fresh "GET /hlod/ HTTP/1.1" "/hlod/") =
    Raise (OSError EISDIR).
Proof.
  apply (empty_candidate_is_the_directory demo demo_BASE
           (fresh "GET /hlod/ HTTP/1.1" "/hlod/") "hlod"
           (hlod_dir demo_BASE)
           (mkPath Root ["srv"; "app"; "game_data"; "hlod"])
           ".obj" "model/obj" demo_hlod);
    reflexivity.
Defined.

(** ** A sibling directory with a longer name *)

Lemma string_app_nonempty (x s : string) : s <> EmptyString -> (x ++ s)%string <> x.
Proof.
  intros N E. apply (f_equal String.length) in E.
  rewrite string_length_app in E.
  destruct s; [now apply N | cbn in E; lia].
Qed.

(** A canonical join whose segment at the place of the directory's last
    segment [x] is [x] followed by more text, as in [hlod-evil] beside
    [hlod], is rejected: the test is on whole segments, not on the text of
    the paths. *)
Theorem sibling_directory_rejected :
  forall (w : world) (R : PurePath) (C : string) (a : anchor)
         (rs : list string) (x s : string) (more : list string),
    s <> EmptyString ->
    resolve w R = Ok (mkPath Root (rs ++ [x])) ->
    resolve w (R / C)%path = Ok (mkPath a (rs ++ (x ++ s)%string :: more)) ->
    safe_resolve w R C = Ok None.
Proof.
  intros w R C a rs x s more N HR HJ.
  unfold safe_resolve. rewrite HJ. cbn [bind]. rewrite HR. cbn [bind].
  unfold is_relative_to. cbn [root parts].
  rewrite is_prefix_app_same. cbn [is_prefix].
  assert (E : (x =? x ++ s) = false).
  { apply String.eqb_neq. intros E. now apply (string_app_nonempty x s N). }
  rewrite E. now destruct (anchor_eqb a Root).
Qed.

Lemma sibling_directory_witness :
  safe_resolve sibling_dir (hlod_dir demo_BASE) "../hlod-evil/x.obj" = Ok None /\
  exists_ sibling_dir
    (mkPath Root ["srv"; "app"; "game_data"; "hlod-evil"; "x.obj"]) = Ok true.
Proof.
  split; [|reflexivity].
  apply (sibling_directory_rejected sibling_dir (hlod_dir demo_BASE)
           "../hlod-evil/x.obj" Root ["srv"; "app"; "game_data"]
           "hlod" "-evil" ["x.obj"]);
    [discriminate | reflexivity | reflexivity].
Defined.

(** ** A name longer than [NAME_MAX] *)

Lemma lookup_path_app (t : node) (p q : list string) :
  lookup_path t (p ++ q) =
  match lookup_path t p with
  | Some n => lookup_path n q
  | None => None
  end.
Proof.
  revert t. induction p as [|x p IH]; intros t; cbn [app lookup_path];
    [reflexivity|].
  destruct t as [| entries |]; try reflexivity.
  destruct (dict_get x entries); [apply IH | reflexivity].
Qed.

(** Below a directory reached along plain components that are no links, a
    name that is too long stops the kernel's walk. *)
Lemma namei_name_too_long (hops : nat) (t : node) (x : string)
  (entries : list (string * node)) (ps : list string) :
  forall cur : list string,
    forallb plain ps = true ->
    no_link_along t cur ps = true ->
    lookup_path t (cur ++ ps) = Some (Dir entries) ->
    plain x = true ->
    name_too_long x = true ->
    namei hops t cur (ps ++ [x]) = inl ENAMETOOLONG.
Proof.
  intros cur P L D Px T. revert cur P L D.
  induction ps as [|c ps IH]; intros cur P L D.
  - rewrite app_nil_r in D. cbn [app]. rewrite namei_cons, D.
    unfold plain, keep_part in Px.
    destruct (x =? ""), (x =? "."), (x =? ".."); try discriminate.
    cbn [orb]. now rewrite T.
  - cbn [forallb no_link_along] in P, L.
    apply andb_prop in P as [Pc P]. apply andb_prop in L as [Lc L].
    apply negb_true_iff in Lc. unfold is_link in Lc.
    cbn [app]. rewrite namei_cons.
    assert (E : cur ++ c :: ps = (cur ++ [c]) ++ ps)
      by (now rewrite <- app_assoc).
    rewrite E in D. pose proof D as D'.
    rewrite lookup_path_app in D'.
    destruct (lookup_path t (cur ++ [c])) as [n|] eqn:Lc'; [|discriminate].
    rewrite lookup_path_app in Lc'.
    destruct (lookup_path t cur) as [[| es |]|]; try discriminate.
    unfold plain, keep_part in Pc.
    destruct (c =? ""), (c =? "."), (c =? ".."); try discriminate.
    cbn [orb].
    destruct (name_too_long c); [reflexivity|].
    destruct n as [| |target]; try discriminate; now apply IH.
Qed.

Lemma exists_name_too_long (w : world) (r : list string) (x : string)
  (entries : list (string * node)) :
  forallb plain r = true ->
  link_free (fs w) r = true ->
  lookup_path (fs w) r = Some (Dir entries) ->
  plain x = true ->
  name_too_long x = true ->
  exists_ w (mkPath Root (r ++ [x])) = Raise (OSError ENAMETOOLONG).
Proof.
  intros P L D Px T. unfold exists_, stat, start_dir. cbn [root parts].
  destruct (path_too_long _); [reflexivity|].
  now rewrite (namei_name_too_long MAXSYMLINKS (fs w) x entries r [] P L D Px T).
Qed.

(** A request for an asset whose name is longer than [NAME_MAX] bytes is
    not answered 404: the candidate passes [safe_resolve], [exists()]
    raises [OSError] with [ENAMETOOLONG], which [pathlib] does not take for
    an absent file, and the exception leaves [do_GET]. *)
Theorem overlong_name_raises :
  forall (w : world) (BASE : PurePath) (h : handler) (name x : string)
         (directory r : PurePath) (ext ctype : string)
         (entries : list (string * node)),
    dict_get name (ASSET_ROUTES BASE) = Some (directory, ext, ctype) ->
    request_path h = (asset_prefix name ++ x)%string ->
    resolve w directory = Ok r ->
    lookup_path (fs w) (parts r) = Some (Dir entries) ->
    link_free (fs w) (parts r ++ [x]) = true ->
    split "/" x = [x] ->
    plain x = true ->
    name_too_long x = true ->
    safe_resolve w directory x = Ok (Some (mkPath Root (parts r ++ [x]))) /\
    exists_ w (mkPath Root (parts r ++ [x])) = Raise (OSError ENAMETOOLONG) /\
    do_GET w BASE h = Raise (OSError ENAMETOOLONG).
Proof.
  intros w BASE h name x directory r ext ctype entries Hr Hp R D L Sx Px T.
  assert (Parse : parts (parse_path x) = [x]).
  { unfold parse_path. cbn [parts]. rewrite Sx. cbn [filter].
    unfold plain in Px. apply andb_prop in Px as [Px _].
    apply andb_prop in Px as [Px _]. now rewrite Px. }
  assert (Nx : has_nul x = false).
  { unfold plain in Px. apply andb_prop in Px as [_ Px].
    now apply negb_true_iff in Px. }
  assert (Sl : startswith x "/" = false).
  { destruct x as [|c x]; [reflexivity|].
    unfold startswith. cbn [prefix].
    destruct (Ascii.eqb_spec c "/"%char) as [->|Ne].
    - cbn [split] in Sx. rewrite Ascii.eqb_refl in Sx. discriminate.
    - destruct (ascii_dec "/" c) as [E|_]; [congruence | reflexivity]. }
  assert (Dd : forallb (fun y => negb (y =? "..")) (split "/" x) = true).
  { rewrite Sx. cbn [forallb]. unfold plain in Px.
    apply andb_prop in Px as [Px _]. apply andb_prop in Px as [_ Px].
    now rewrite Px. }
  assert (SR : safe_resolve w directory x =
               Ok (Some (mkPath Root (parts r ++ [x])))).
  { rewrite <- Parse. apply safe_resolve_below; auto. now rewrite Parse. }
  assert (Lr : link_free (fs w) (parts r) = true).
  { unfold link_free in *. rewrite no_link_along_app in L.
    now apply andb_prop in L as [L _]. }
  assert (Ex : exists_ w (mkPath Root (parts r ++ [x])) =
               Raise (OSError ENAMETOOLONG)).
  { apply (exists_name_too_long w (parts r) x entries); auto.
    now apply resolve_plain in R. }
  repeat split; auto.
  rewrite (asset_request_reaches_route w BASE h name x directory ext ctype
             Hr Hp), SR.
  cbn [bind]. unfold _serve_file. now rewrite Ex.
Qed.

Lemma overlong_name_witness :
  safe_resolve demo (hlod_dir demo_BASE) (str_mul "a" 256) =
    Ok (Some (mkPath Root ["srv"; "app"; "game_data"; "hlod"; str_mul "a" 256])) /\
  exists_ demo (mkPath Root ["srv"; "app"; "game_data"; "hlod"; str_mul "a" 256]) =
    Raise (OSError ENAMETOOLONG) /\
  do_GET demo demo_BASE
         (fresh ("GET /hlod/" ++ str_mul "a" 256 ++ " HTTP/1.1")
                ("/hlod/" ++ str_mul "a" 256)) =
    Raise (OSError ENAMETOOLONG).
Proof.
  exact (overlong_name_raises demo demo_BASE
           (fresh ("GET /hlod/" ++ str_mul "a" 256 ++ " HTTP/1.1")
                  ("/hlod/" ++ str_mul "a" 256))
           "hlod" (str_mul "a" 256) (hlod_dir demo_BASE)
           (mkPath Root ["srv"; "app"; "game_data"; "hlod"]) ".obj" "model/obj"
           demo_hlod eq_refl eq_refl eq_refl eq_refl eq_refl eq_refl eq_refl
           eq_refl).
Defined.

(** ** A listing does not depend on the order of the directory *)

(** Two ascending lists with the same elements are the same list. *)
Lemma ascending_unique (xs : list string) :
  forall ys,
    StronglySorted (fun x y => String.leb x y = true) xs ->
    StronglySorted (fun x y => String.leb x y = true) ys ->
    Permutation xs ys ->
    xs = ys.
Proof.
  induction xs as [|x xs IH]; intros ys Sx Sy P.
  - apply Permutation_nil in P. now subst.
  - destruct ys as [|y ys];
      [apply Permutation_sym, Permutation_nil in P; discriminate|].
    inversion Sx as [|? ? Sx' Fx]; subst.
    inversion Sy as [|? ? Sy' Fy]; subst.
    rewrite Forall_forall in Fx, Fy.
    assert (E : x = y).
    { assert (Ix : In x (y :: ys))
        by (apply (Permutation_in _ P); now left).
      assert (Iy : In y (x :: xs))
        by (apply (Permutation_in _ (Permutation_sym P)); now left).
      destruct Ix as [->|Ix]; [reflexivity|].
      destruct Iy as [->|Iy]; [reflexivity|].
      apply String.leb_antisym; auto. }
    subst y. f_equal. apply IH; auto.
    now apply Permutation_cons_inv in P.
Qed.

Lemma sorted_of_permutation (xs ys : list string) :
  Permutation xs ys -> sorted xs = sorted ys.
Proof.
  intros P. apply ascending_unique; try apply sorted_ascending.
  etransitivity; [apply sorted_permutation|].
  etransitivity; [exact P|]. apply Permutation_sym, sorted_permutation.
Qed.

Lemma filter_permutation {A : Type} (f : A -> bool) (xs ys : list A) :
  Permutation xs ys -> Permutation (filter f xs) (filter f ys).
Proof.
  induction 1 as [| a xs ys P IH | a b xs | xs ys zs P1 IH1 P2 IH2];
    cbn [filter].
  - constructor.
  - destruct (f a); [now constructor | exact IH].
  - destruct (f a), (f b); try reflexivity. constructor.
  - now transitivity (filter f ys).
Qed.

(** The result of [list_files] depends on the names a directory holds,
    not on the order in which [os.listdir] gives them: two directories
    that hold the same names, in any order, are listed alike. So a
    directory that has gained one entry, wherever [os.listdir] puts it, is
    listed as before with the new name in its place if the name ends with
    the extension, and exactly as before if it does not. *)
Theorem listing_ignores_directory_order :
  forall (w w' : world) (directory directory' : PurePath) (ext : string)
         (entries entries' : list (string * node)),
    stat w directory = inr (Dir entries) ->
    stat w' directory' = inr (Dir entries') ->
    (Permutation (map fst entries) (map fst entries') ->
     list_files w directory ext = list_files w' directory' ext) /\
    (forall name : string,
        Permutation (map fst entries') (name :: map fst entries) ->
        exists before after,
          list_files w directory ext = Ok before /\
          list_files w' directory' ext = Ok after /\
          (endswith name ext = true ->
           after = sorted (name :: before) /\
           Permutation after (name :: before) /\ after <> before) /\
          (endswith name ext = false -> after = before)).
Proof.
  intros w w' directory directory' ext entries entries' S S'.
  rewrite (list_files_of_dir _ _ _ _ S), (list_files_of_dir _ _ _ _ S').
  split.
  - intros P. f_equal. now apply sorted_of_permutation, filter_permutation.
  - intros name P. do 2 eexists.
    split; [reflexivity|]. split; [reflexivity|].
    apply (filter_permutation (fun f => endswith f ext)) in P.
    cbn [filter] in P. split; intros E; rewrite E in P.
    + assert (Q : Permutation
                    (name :: filter (fun f => endswith f ext) (map fst entries))
                    (name :: sorted (filter (fun f => endswith f ext)
                                            (map fst entries))))
        by (constructor; apply Permutation_sym, sorted_permutation).
      split; [|split].
      * apply sorted_of_permutation. now transitivity
          (name :: filter (fun f => endswith f ext) (map fst entries)).
      * etransitivity; [apply sorted_permutation|].
        now transitivity
          (name :: filter (fun f => endswith f ext) (map fst entries)).
      * intros Eq.
        assert (Len : Permutation
                        (sorted (filter (fun f => endswith f ext)
                                        (map fst entries')))
                        (name :: sorted (filter (fun f => endswith f ext)
                                                (map fst entries)))).
        { etransitivity; [apply sorted_permutation|].
          now transitivity
            (name :: filter (fun f => endswith f ext) (map fst entries)). }
        apply Permutation_length in Len. rewrite Eq in Len.
        cbn [List.length] in Len. lia.
    + now apply sorted_of_permutation.
Qed.

Lemma listing_order_witness :
  list_files demo (hlod_dir demo_BASE) ".obj" =
  list_files
    (mkWorld (demo_tree (rev demo_hlod) (text "secret")) ["srv"; "app"] true)
    (hlod_dir demo_BASE) ".obj" /\
  exists before after,
    list_files demo (hlod_dir demo_BASE) ".obj" = Ok before /\
    list_files one_more_file (hlod_dir demo_BASE) ".obj" = Ok after /\
    after = sorted ("d.obj" :: before) /\ after <> before.
Proof.
  destruct (listing_ignores_directory_order demo
              (mkWorld (demo_tree (rev demo_hlod) (text "secret"))
                       ["srv"; "app"] true)
              (hlod_dir demo_BASE) (hlod_dir demo_BASE) ".obj"
              demo_hlod (rev demo_hlod) eq_refl eq_refl) as [A _].
  split.
  - apply A. cbn. apply Permutation_rev.
  - destruct (listing_ignores_directory_order demo one_more_file
                (hlod_dir demo_BASE) (hlod_dir demo_BASE) ".obj"
                demo_hlod (("d.obj", text "o d") :: demo_hlod)
                eq_refl eq_refl) as [_ B].
    destruct (B "d.obj" (Permutation_refl _)) as [before [after [E1 [E2 [C _]]]]].
    exists before, after. destruct (C eq_refl) as [C1 [_ C3]].
    repeat split; assumption.
Defined.

(** ** The line printed at start *)

Lemma route_counts_get (w : world) (routes : list (string * asset_route)) :
  forall (counts : list (string * nat)) (name : string)
         (d : PurePath) (ext ctype : string),
    route_counts w routes = Ok counts ->
    dict_get name routes = Some (d, ext, ctype) ->
    exists names,
      list_files w d ext = Ok names /\
      dict_get name counts = Some (List.length names).
Proof.
  induction routes as [|[n [[d0 ext0] c0]] routes IH];
    intros counts name d ext ctype; cbn [route_counts dict_get];
    [discriminate|].
  destruct (list_files w d0 ext0) as [names0|e] eqn:L; cbn [bind];
    [|discriminate].
  destruct (route_counts w routes) as [counts0|e]; cbn [bind];
    [|discriminate].
  intros [= <-]. cbn [dict_get].
  destruct (n =? name).
  - intros [= <- <- <-]. now exists names0.
  - now apply IH.
Qed.

Lemma route_counts_keys (w : world) (routes : list (string * asset_route)) :
  forall counts,
    route_counts w routes = Ok counts -> map fst counts = map fst routes.
Proof.
  induction routes as [|[n [[d0 ext0] c0]] routes IH]; intros counts;
    cbn [route_counts].
  - now intros [= <-].
  - destruct (list_files w d0 ext0) as [names0|e]; cbn [bind]; [|discriminate].
    destruct (route_counts w routes) as [counts0|e]; cbn [bind];
      [|discriminate].
    intros [= <-]. cbn [map fst]. f_equal. now apply IH.
Qed.

(** When the main block prints its line, the line names the four routes
    in table order, each with a count, and the count of a route is the
    length of the array that [/list_<name>] is answered with in the same
    file system. *)
Theorem banner_counts_are_listing_lengths :
  forall (w : world) (BASE : PurePath) (line : string),
    banner w BASE = Ok line ->
    exists n1 n2 n3 n4 : nat,
      line = ("http://localhost:8080/ | hlod: " ++ str_of_nat n1 ++
              " | terrain: " ++ str_of_nat n2 ++
              " | hlod_all: " ++ str_of_nat n3 ++
              " | textures: " ++ str_of_nat n4)%string /\
      forall (name : string) (n : nat) (h : handler),
        In (name, n) [("hlod", n1); ("terrain", n2);
                      ("hlod_all", n3); ("textures", n4)] ->
        request_path h = ("/list_" ++ name)%string ->
        exists names,
          List.length names = n /\
          do_GET w BASE h =
            Ok (reply_200 h (json_fields (encode (json_dumps names)))
                          (encode (json_dumps names))).
Proof.
  intros w BASE line. unfold banner.
  destruct (route_counts w (ASSET_ROUTES BASE)) as [counts|e] eqn:RC;
    cbn [bind]; [|discriminate].
  intros [= <-].
  pose proof (route_counts_keys _ _ _ RC) as K.
  destruct counts as [|[k1 n1] [|[k2 n2] [|[k3 n3] [|[k4 n4] [|]]]]];
    try discriminate K.
  cbn in K. injection K as -> -> -> ->.
  exists n1, n2, n3, n4. split; [reflexivity|].
  intros name n h Hin Hp.
  assert (G : exists d ext ctype,
             dict_get name (ASSET_ROUTES BASE) = Some (d, ext, ctype) /\
             dict_get name [("hlod", n1); ("terrain", n2);
                            ("hlod_all", n3); ("textures", n4)] = Some n).
  { cbn [In] in Hin.
    destruct Hin as [E|[E|[E|[E|[]]]]]; injection E as <- <-;
      do 3 eexists; split; reflexivity. }
  destruct G as [d [ext [ctype [Hr Hc]]]].
  destruct (route_counts_get _ _ _ _ _ _ _ RC Hr) as [names [L C]].
  rewrite Hc in C. injection C as ->.
  exists names. split; [reflexivity|].
  rewrite (listing_request_reaches_route w BASE h name d ext ctype Hr Hp), L.
  cbn [bind]. now rewrite serve_json_reply.
Qed.

Lemma banner_counts_witness :
  exists n1 n2 n3 n4 : nat,
    "http://localhost:8080/ | hlod: 2 | terrain: 0 | hlod_all: 0 | textures: 0" =
      ("http://localhost:8080/ | hlod: " ++ str_of_nat n1 ++
       " | terrain: " ++ str_of_nat n2 ++
       " | hlod_all: " ++ str_of_nat n3 ++
       " | textures: " ++ str_of_nat n4)%string /\
    exists names,
      List.length names = n1 /\
      do_GET demo demo_BASE (fresh "GET /list_hlod HTTP/1.1" "/list_hlod") =
        Ok (reply_200 (fresh "GET /list_hlod HTTP/1.1" "/list_hlod")
                      (json_fields (encode (json_dumps names)))
                      (encode (json_dumps names))).
Proof.
  destruct (banner_counts_are_listing_lengths demo demo_BASE _ eq_refl)
    as [n1 [n2 [n3 [n4 [E K]]]]].
  exists n1, n2, n3, n4. split; [exact E|].
  exact (K "hlod" n1 (fresh "GET /list_hlod HTTP/1.1" "/list_hlod")
           (or_introl eq_refl) eq_refl).
Defined.

(** ** A regular file in the place of an asset directory *)

Lemma list_files_of_file (w : world) (directory : PurePath) (ext : string)
  (readable : bool) (content : list byte) :
  stat w directory = inr (File readable content) ->
  list_files w directory ext = Raise (OSError ENOTDIR).
Proof.
  intros H. unfold list_files, exists_, listdir. now rewrite H.
Qed.

Lemma list_files_raises_oserror (w : world) (directory : PurePath)
  (ext : string) (e : exn) :
  list_files w directory ext = Raise e -> exists k, e = OSError k.
Proof.
  unfold list_files, exists_, listdir.
  destruct (stat w directory) as [k|[r c| es | tg]]; cbn [bind negb];
    try discriminate.
  - destruct (ignore_error k); cbn [bind negb]; [discriminate|].
    intros [= <-]. now exists k.
  - intros [= <-]. now exists ENOTDIR.
  - intros [= <-]. now exists ENOTDIR.
Qed.

Lemma route_counts_stops (w : world) (routes : list (string * asset_route)) :
  forall (name : string) (d : PurePath) (ext ctype : string)
         (readable : bool) (content : list byte),
    In (name, (d, ext, ctype)) routes ->
    stat w d = inr (File readable content) ->
    exists k, route_counts w routes = Raise (OSError k).
Proof.
  induction routes as [|[n [[d0 ext0] c0]] routes IH];
    intros name d ext ctype readable content I S; [destruct I|].
  cbn [route_counts].
  destruct (list_files w d0 ext0) as [names|e] eqn:L; cbn [bind].
  - destruct I as [E|I].
    + injection E as -> -> -> ->.
      rewrite (list_files_of_file _ _ _ _ _ S) in L. discriminate.
    + destruct (IH name d ext ctype readable content I S) as [k ->].
      cbn [bind]. now exists k.
  - apply list_files_raises_oserror in L as [k ->]. now exists k.
Qed.

(** The main block counts the files of every asset directory before the
    server is made, and [list_files] calls [os.listdir] outside any
    [try]: when an asset directory of the program is a regular file, the
    count raises an [OSError], no line is printed and no server is
    started. When that directory is the first of the table the error is
    [NotADirectoryError]. *)
Theorem regular_file_stops_the_start :
  forall (w : world) (BASE : PurePath) (name : string) (d : PurePath)
         (ext ctype : string) (readable : bool) (content : list byte),
    In (name, (d, ext, ctype)) (ASSET_ROUTES BASE) ->
    stat w d = inr (File readable content) ->
    (exists k, banner w BASE = Raise (OSError k)) /\
    (name = "hlod" -> banner w BASE = Raise (OSError ENOTDIR)).
Proof.
  intros w BASE name d ext ctype readable content I S. split.
  - destruct (route_counts_stops w _ name d ext ctype readable content I S)
      as [k E].
    exists k. unfold banner. now rewrite E.
  - intros ->. unfold banner, ASSET_ROUTES in *. cbn [route_counts].
    destruct I as [E|[E|[E|[E|[]]]]]; try discriminate.
    injection E as <- _ _.
    now rewrite (list_files_of_file _ _ _ _ _ S).
Qed.

Lemma regular_file_stops_witness :
  (exists k, banner hlod_is_file demo_BASE = Raise (OSError k)) /\
  banner hlod_is_file demo_BASE = Raise (OSError ENOTDIR).
Proof.
  destruct (regular_file_stops_the_start hlod_is_file demo_BASE "hlod"
              (hlod_dir demo_BASE) ".obj" "model/obj" true
              (encode "not a directory") (or_introl eq_refl) eq_refl)
    as [A B].
  split; [exact A | exact (B eq_refl)].
Defined.

(** ** Asset files in a tree without symbolic links *)

Lemma no_links_is_link (t : node) (p : list string) :
  symlink_paths t = [] -> is_link t p = false.
Proof.
  intros E. unfold is_link.
  destruct (lookup_path t p) as [[| |target]|] eqn:L; try reflexivity.
  apply symlink_paths_complete in L. rewrite E in L. destruct L.
Qed.

Lemma no_links_along (t : node) (ps : list string) :
  symlink_paths t = [] -> forall path, no_link_along t path ps = true.
Proof.
  intros E. induction ps as [|x ps IH]; intros path; cbn [no_link_along].
  - reflexivity.
  - now rewrite (no_links_is_link t _ E), IH.
Qed.

(** A path of plain components without links is its own canonical form. *)
Lemma resolve_plain_link_free (w : world) (p : PurePath) :
  root p = Root ->
  forallb plain (parts p) = true ->
  link_free (fs w) (parts p) = true ->
  resolve w p = Ok (mkPath Root (parts p)).
Proof.
  intros R P L. apply resolve_of_realpath; [| exact P | exact L].
  unfold realpath, start_dir. rewrite R. cbn [app].
  rewrite <- (app_nil_r (parts p)) at 1.
  rewrite joinrealpath_plain by assumption.
  rewrite joinrealpath_nil. cbn [app].
  now rewrite (normparts_plain _ [] P).
Qed.

Lemma asset_directory_parts (BASE : PurePath) (name : string)
  (directory : PurePath) (ext ctype : string) :
  dict_get name (ASSET_ROUTES BASE) = Some (directory, ext, ctype) ->
  root directory = root BASE /\
  exists leaf, plain leaf = true /\
               parts directory = parts BASE ++ ["game_data"; leaf].
Proof.
  unfold ASSET_ROUTES. cbn [dict_get].
  repeat (match goal with
          | |- context [if ?k =? name then _ else _] =>
              destruct (k =? name)
          end;
          [ intros [= <- _ _]; split; [reflexivity|];
            eexists; split; [| unfold GAME, joinpath; cbn; 
                               rewrite <- app_assoc; reflexivity];
            reflexivity |]).
  discriminate.
Qed.

(** When the tree holds no symbolic link and [BASE] is absolute with plain
    components, an asset request is answered 404 or with the bytes of a
    regular file of the tree that lies below the route's own directory:
    the place is the directory's components followed by components that
    name entries, none of them [..]. *)
Theorem asset_reply_stays_in_the_directory :
  forall (w : world) (BASE : PurePath) (h h' : handler)
         (name filename : string) (directory : PurePath) (ext ctype : string),
    symlink_paths (fs w) = [] ->
    root BASE = Root ->
    forallb plain (parts BASE) = true ->
    dict_get name (ASSET_ROUTES BASE) = Some (directory, ext, ctype) ->
    request_path h = (asset_prefix name ++ filename)%string ->
    do_GET w BASE h = Ok h' ->
    h' = send_error 404 h \/
    exists below data,
      forallb plain below = true /\
      lookup_path (fs w) (parts directory ++ below) = Some (File true data) /\
      h' = reply_200 h (file_fields ctype data) data.
Proof.
  intros w BASE h h' name filename directory ext ctype NL R P Hr Hp G.
  destruct (asset_reply_confined w BASE h h' name filename directory
              ext ctype Hr Hp G)
    as [E | [p [c [data [E1 [E2 [E3 [_ [E4 K]]]]]]]]]; [now left | right].
  destruct (asset_directory_parts _ _ _ _ _ Hr) as [Rd [leaf [Pl Pd]]].
  assert (Pdir : forallb plain (parts directory) = true).
  { rewrite Pd, forallb_app, P. cbn [forallb]. now rewrite Pl. }
  rewrite (resolve_plain_link_free w directory) in E2;
    [| congruence | exact Pdir | apply no_links_along, NL].
  injection E2 as <-.
  unfold is_relative_to in E3. apply andb_prop in E3 as [_ E3].
  apply is_prefix_iff in E3 as [below E3]. cbn [parts] in E3.
  exists below, data.
  pose proof (resolve_plain _ _ _ E1) as Pp.
  rewrite E3, forallb_app in Pp. apply andb_prop in Pp as [_ Pb].
  split; [exact Pb|]. split; [|exact E4].
  rewrite <- E3. apply K. apply no_links_along, NL.
Qed.

Lemma asset_reply_stays_witness :
  do_GET demo demo_BASE (fresh "GET /hlod/a.obj HTTP/1.1" "/hlod/a.obj") =
    Ok (reply_200 (fresh "GET /hlod/a.obj HTTP/1.1" "/hlod/a.obj")
                  (file_fields "model/obj" (encode "o a")) (encode "o a")) /\
  (reply_200 (fresh "GET /hlod/a.obj HTTP/1.1" "/hlod/a.obj")
             (file_fields "model/obj" (encode "o a")) (encode "o a") =
   send_error 404 (fresh "GET /hlod/a.obj HTTP/1.1" "/hlod/a.obj") \/
   exists below data,
     forallb plain below = true /\
     lookup_path (fs demo) (parts (hlod_dir demo_BASE) ++ below) =
       Some (File true data) /\
     reply_200 (fresh "GET /hlod/a.obj HTTP/1.1" "/hlod/a.obj")
               (file_fields "model/obj" (encode "o a")) (encode "o a") =
     reply_200 (fresh "GET /hlod/a.obj HTTP/1.1" "/hlod/a.obj")
               (file_fields "model/obj" data) data).
Proof.
  split; [reflexivity|].
  exact (asset_reply_stays_in_the_directory demo demo_BASE
           (fresh "GET /hlod/a.obj HTTP/1.1" "/hlod/a.obj") _
           "hlod" "a.obj" (hlod_dir demo_BASE) ".obj" "model/obj"
           eq_refl eq_refl eq_refl eq_refl eq_refl eq_refl).
Defined.

(** ** The body of a listing *)

Lemma read_str_escape (c : ascii) (rest : string) :
  read_str (json_escape c ++ rest) = push c (read_str rest).
Proof.
  destruct c as [[] [] [] [] [] [] [] []]; reflexivity.
Qed.

Lemma string_app_assoc (a b c : string) :
  ((a ++ b) ++ c = a ++ (b ++ c))%string.
Proof. induction a as [|x a IH]; cbn; [reflexivity | now rewrite IH]. Qed.

Lemma read_str_escape_all (s rest : string) :
  read_str (json_escape_all s ++ String dquote rest) = Some (s, rest).
Proof.
  induction s as [|c s IH]; cbn [json_escape_all].
  - reflexivity.
  - now rewrite string_app_assoc, read_str_escape, IH.
Qed.

Lemma json_str_inj (x y tx ty : string) :
  (json_str x ++ tx = json_str y ++ ty)%string -> x = y /\ tx = ty.
Proof.
  unfold json_str. cbn [append]. intros [= H].
  rewrite !string_app_assoc in H. cbn [append] in H.
  apply (f_equal read_str) in H. rewrite !read_str_escape_all in H.
  now injection H.
Qed.

Lemma concat_json_inj (d1 : list string) :
  forall d2,
    (String.concat ", " (map json_str d1) ++ "]" =
     String.concat ", " (map json_str d2) ++ "]")%string -> d1 = d2.
Proof.
  induction d1 as [|x1 r1 IH]; intros [|x2 r2]; cbn [map String.concat].
  - reflexivity.
  - destruct (map json_str r2); discriminate.
  - destruct (map json_str r1); discriminate.
  - destruct r1 as [|y1 r1], r2 as [|y2 r2]; cbn [map].
    + intros H. apply json_str_inj in H as [-> _]. reflexivity.
    + rewrite string_app_assoc. intros H. apply json_str_inj in H as [_ H].
      discriminate.
    + rewrite string_app_assoc. intros H. apply json_str_inj in H as [_ H].
      discriminate.
    + rewrite !string_app_assoc. intros H. apply json_str_inj in H as [-> H].
      cbn [append] in H. injection H as H.
      f_equal. apply IH. cbn [map]. exact H.
Qed.

Lemma json_dumps_inj (d1 d2 : list string) :
  json_dumps d1 = json_dumps d2 -> d1 = d2.
Proof.
  unfold json_dumps. cbn [append]. intros [= H]. now apply concat_json_inj.
Qed.

Lemma is_ascii_app (a b : string) :
  is_ascii (a ++ b) = is_ascii a && is_ascii b.
Proof.
  unfold is_ascii. induction a as [|c a IH]; cbn; [reflexivity|].
  now rewrite IH, andb_assoc.
Qed.

Lemma json_escape_ascii (c : ascii) : is_ascii (json_escape c) = true.
Proof. destruct c as [[] [] [] [] [] [] [] []]; reflexivity. Qed.

Lemma json_escape_all_ascii (s : string) : is_ascii (json_escape_all s) = true.
Proof.
  induction s as [|c s IH]; cbn [json_escape_all]; [reflexivity|].
  now rewrite is_ascii_app, json_escape_ascii, IH.
Qed.

Lemma json_str_ascii (s : string) : is_ascii (json_str s) = true.
Proof.
  unfold json_str. change (String dquote ?x) with (String dquote "" ++ x)%string.
  rewrite is_ascii_app, is_ascii_app, json_escape_all_ascii. reflexivity.
Qed.

Lemma concat_ascii (xs : list string) :
  forallb is_ascii xs = true -> is_ascii (String.concat ", " xs) = true.
Proof.
  induction xs as [|x xs IH]; cbn [forallb String.concat]; [reflexivity|].
  intros H. apply andb_prop in H as [Hx Hxs].
  destruct xs as [|y xs]; [exact Hx|].
  rewrite !is_ascii_app, Hx, (IH Hxs). reflexivity.
Qed.

Lemma json_dumps_ascii (d : list string) : is_ascii (json_dumps d) = true.
Proof.
  unfold json_dumps. rewrite !is_ascii_app, concat_ascii; [reflexivity|].
  induction d as [|x d IH]; cbn [map forallb]; [reflexivity|].
  now rewrite json_str_ascii, IH.
Qed.

Lemma encode_ascii_length (s : string) :
  is_ascii s = true -> List.length (encode s) = String.length s.
Proof.
  unfold is_ascii.
  induction s as [|c s IH];
    cbn [list_ascii_of_string forallb encode String.length]; [reflexivity|].
  intros H. apply andb_prop in H as [Hc Hs]. unfold encode_char.
  rewrite Hc. cbn [app List.length]. now rewrite IH.
Qed.

Lemma byte_of_N_inj (n m : N) :
  (n < 256)%N -> (m < 256)%N -> byte_of_N n = byte_of_N m -> n = m.
Proof.
  unfold byte_of_N. intros Hn Hm.
  destruct (Byte.of_N n) as [a|] eqn:A.
  - destruct (Byte.of_N m) as [b|] eqn:B.
    + intros ->. apply Byte.to_of_N in A, B. congruence.
    + apply Byte.of_N_None_iff in B. lia.
  - apply Byte.of_N_None_iff in A. lia.
Qed.

Lemma encode_ascii_inj (s : string) :
  forall t, is_ascii s = true -> is_ascii t = true ->
            encode s = encode t -> s = t.
Proof.
  unfold is_ascii.
  induction s as [|c s IH]; intros [|c' t];
    cbn [list_ascii_of_string forallb encode]; intros Hs Ht.
  - reflexivity.
  - apply andb_prop in Ht as [Hc _]. unfold encode_char. rewrite Hc.
    discriminate.
  - apply andb_prop in Hs as [Hc _]. unfold encode_char. rewrite Hc.
    discriminate.
  - apply andb_prop in Hs as [Hc Hs]. apply andb_prop in Ht as [Hc' Ht].
    unfold encode_char. rewrite Hc, Hc'. cbn [app]. intros [= E1 E2].
    apply N.ltb_lt in Hc, Hc'.
    apply byte_of_N_inj in E1; try lia.
    assert (c = c')
      by (rewrite <- (ascii_N_embedding c), <- (ascii_N_embedding c');
          congruence).
    subst. f_equal. now apply IH.
Qed.

Lemma encode_ascii_bytes (s : string) :
  is_ascii s = true -> Forall (fun b => (Byte.to_N b < 128)%N) (encode s).
Proof.
  unfold is_ascii.
  induction s as [|c s IH]; cbn [list_ascii_of_string forallb encode];
    [constructor|].
  intros H. apply andb_prop in H as [Hc Hs]. unfold encode_char.
  rewrite Hc. cbn [app]. constructor; [|now apply IH].
  apply N.ltb_lt in Hc. unfold byte_of_N.
  destruct (Byte.of_N (N_of_ascii c)) as [b|] eqn:B.
  - apply Byte.to_of_N in B. now rewrite B.
  - apply Byte.of_N_None_iff in B. lia.
Qed.

(** The body of a listing reply holds no byte above 127, whatever the file
    names are: [json.dumps] escapes every character outside the printable
    ASCII range.  And the body determines the listing: two lists of names
    that [_serve_json] answers with the same bytes are the same list, so no
    name with a quote, a backslash or a comma in it can pass for
    another listing. *)
Theorem listing_body_determines_the_listing :
  forall (h : handler) (names : list string),
    Forall (fun b => (Byte.to_N b < 128)%N) (encode (json_dumps names)) /\
    body (_serve_json names h) = (body h ++ encode (json_dumps names))%list /\
    forall names' : list string,
      body (_serve_json names' h) = body (_serve_json names h) ->
      names' = names.
Proof.
  intros h names.
  split; [apply encode_ascii_bytes, json_dumps_ascii|].
  split; [now rewrite serve_json_reply|].
  intros names'. rewrite !serve_json_reply. cbn [reply_200 body].
  intros H. apply app_inv_head in H.
  apply json_dumps_inj, encode_ascii_inj; auto using json_dumps_ascii.
Qed.
